(** * Contract analyzer: the document analysis pipeline of [backend/server.py]

    A shallow embedding of the upload pipeline: text chunking, the per-chunk
    oracle call, recovery of a JSON array from the oracle's answer,
    aggregation, and the upload endpoint with its store.

    Python [str] values are sequences of Unicode code points; they are
    modelled as [list N].  Lengths are [nat], as [len] returns them. *)

From Stdlib Require Import Ascii String.
From Stdlib Require Import List NArith ZArith Lia Bool Arith.
From Stdlib Require Import DecimalString.
From Stdlib Require Import Permutation.
Import ListNotations.

Set Implicit Arguments.
#[local] Set Warnings "-register-all".

(** ** Python strings *)

Module PyStr.

Definition str := list N.

(** A list back to front, in one pass. *)
Definition reverse {A} (l : list A) : list A := rev_append l [].

(** A string literal, code point by code point. *)
Definition u (s : string) : str := map N_of_ascii (list_ascii_of_string s).

(** [c] is the character [a]. *)
Definition isc (a : ascii) (c : N) : bool := (c =? N_of_ascii a)%N.

(** [str.isspace] on one code point: the white-space set used by
    [str.split()] and [str.strip()] without arguments. *)
Definition isspace (c : N) : bool :=
  ((9 <=? c) && (c <=? 13) || (28 <=? c) && (c <=? 32) ||
   (c =? 133) || (c =? 160) || (c =? 5760) ||
   (8192 <=? c) && (c <=? 8202) || (c =? 8232) || (c =? 8233) ||
   (c =? 8239) || (c =? 8287) || (c =? 12288))%N.

Fixpoint lstrip (s : str) : str :=
  match s with
  | c :: s' => if isspace c then lstrip s' else s
  | [] => []
  end.

(** [s.strip()] *)
Definition strip (s : str) : str := reverse (lstrip (reverse (lstrip s))).

(** A finished word of [split]: nothing when no character was gathered. *)
Definition flush (cur : str) : list str :=
  match cur with
  | [] => []
  | _ => [reverse cur]
  end.

(** The scan of [s.split()]: [cur] holds the characters of the word being
    read, last character first. *)
Fixpoint split_from (cur : str) (s : str) : list str :=
  match s with
  | [] => flush cur
  | c :: s' =>
      if isspace c then flush cur ++ split_from [] s'
      else split_from (c :: cur) s'
  end.

(** [s.split()] *)
Definition split (s : str) : list str := split_from [] s.

(** [sep.join(ws)] *)
Fixpoint join (sep : str) (ws : list str) : str :=
  match ws with
  | [] => []
  | [w] => w
  | w :: ws' => w ++ sep ++ join sep ws'
  end.

(** [s.startswith(p)] *)
Fixpoint startswith (p s : str) : bool :=
  match p, s with
  | [], _ => true
  | a :: p', b :: s' => (a =? b)%N && startswith p' s'
  | _ :: _, [] => false
  end.

(** [s.endswith(p)] *)
Definition endswith (s p : str) : bool := startswith (reverse p) (reverse s).

(** [s.lower()], on the letters A to Z.  The only use is the test of the
    suffix [.pdf], which no other case mapping changes. *)
Definition lower (s : str) : str :=
  map (fun c => if ((65 <=? c) && (c <=? 90))%N then (c + 32)%N else c) s.

(** [str(n)] for a natural number. *)
Definition of_nat (n : nat) : str := u (NilEmpty.string_of_uint (Nat.to_uint n)).

Definition is_empty {A} (l : list A) : bool :=
  match l with [] => true | _ => false end.

(** A literal in which the apostrophe stands for the double quote, for
    JSON text. *)
Definition uq (s : string) : str :=
  map (fun c => if (c =? 39)%N then 34%N else c) (u s).

Arguments u s%_string.
Arguments uq s%_string.
Arguments isc a%_char c%_N.

End PyStr.
Import PyStr.

(** ** TextChunker: lines 113-134 of [analyze_contract_with_llm] *)

Definition max_chunk_size : nat := 15 * 1000.

(** The loop state: [chunks], [current_chunk], [current_length]. *)
Definition chunker_state := (list str * list str * nat)%type.

(** One iteration of [for word in words]. *)
Definition chunk_word (budget : nat) (st : chunker_state) (word : str)
  : chunker_state :=
  let '(chunks, current_chunk, current_length) := st in
  if (budget <? current_length + length word) && negb (is_empty current_chunk)
  then (chunks ++ [join (u " ") current_chunk], [word], length word)
  else (chunks, current_chunk ++ [word], current_length + length word + 1).

Definition chunk_words (budget : nat) (words : list str) (st : chunker_state)
  : chunker_state :=
  fold_left (chunk_word budget) words st.

(** The final [if current_chunk: chunks.append(...)]. *)
Definition finish_chunks (st : chunker_state) : list str :=
  let '(chunks, current_chunk, _) := st in
  if is_empty current_chunk then chunks
  else chunks ++ [join (u " ") current_chunk].

Definition chunk_text (budget : nat) (contract_text : str) : list str :=
  if budget <? length contract_text
  then finish_chunks (chunk_words budget (split contract_text) ([], [], 0))
  else [contract_text].

(** ** Exceptions and results *)

Inductive exn :=
| JSONDecodeError (msg : str)
| HTTPException (status_code : nat) (detail : str)
| Exception (msg : str).

(** [str(e)]; an [HTTPException] prints as its status and detail. *)
Definition str_exn (e : exn) : str :=
  match e with
  | JSONDecodeError msg => msg
  | HTTPException status_code detail => of_nat status_code ++ u ": " ++ detail
  | Exception msg => msg
  end.

Inductive result (A : Type) :=
| Ok (a : A)
| Raise (e : exn).
Arguments Ok {A} a.
Arguments Raise {A} e.

(** ** The [json] module: values and [json.loads] *)

Module Json.

Inductive value :=
| JNone
| JBool (b : bool)
| JInt (n : Z)
| JFloat (lexeme : str)
| JStr (s : str)
| JList (items : list value)
| JDict (pairs : list (str * value)).

Definition dict := list (str * value).

Definition str_eqb (a b : str) : bool :=
  if list_eq_dec N.eq_dec a b then true else false.

(** [d[k] = v]: a key already present keeps its place and takes the new
    value. *)
Fixpoint dict_set (d : dict) (k : str) (v : value) : dict :=
  match d with
  | [] => [(k, v)]
  | (k', v') :: d' =>
      if str_eqb k' k then (k', v) :: d' else (k', v') :: dict_set d' k v
  end.

(** [d.get(k)] *)
Fixpoint dict_get (d : dict) (k : str) : option value :=
  match d with
  | [] => None
  | (k', v') :: d' => if str_eqb k' k then Some v' else dict_get d' k
  end.

Definition is_ws (c : N) : bool := isc " " c || isc "009" c || isc "010" c || isc "013" c.

Fixpoint skip_ws (s : str) : str :=
  match s with
  | c :: s' => if is_ws c then skip_ws s' else s
  | [] => []
  end.

Definition is_digit (c : N) : bool := ((48 <=? c) && (c <=? 57))%N.

(** The longest run of digits at the head of [s], and what follows it. *)
Fixpoint digits (s : str) : str * str :=
  match s with
  | c :: s' =>
      if is_digit c then let (d, r) := digits s' in (c :: d, r) else ([], s)
  | [] => ([], [])
  end.

Definition int_of_digits (d : str) : Z :=
  fold_left (fun acc c => (10 * acc + Z.of_N (c - 48))%Z) d 0%Z.

(** The integer part of a number: an optional minus sign, then either a
    single 0 or a digit from 1 to 9 followed by any digits. *)
Definition scan_integer (s : str) : option (bool * str * str) :=
  let (neg, t) :=
    match s with
    | c :: s' => if isc "-" c then (true, s') else (false, s)
    | [] => (false, s)
    end in
  match t with
  | c :: t' =>
      if isc "0" c then Some (neg, [c], t')
      else if is_digit c then let (d, r) := digits t' in Some (neg, c :: d, r)
      else None
  | [] => None
  end.

(** The fraction, a dot and at least one digit, when present. *)
Definition scan_frac (s : str) : str * str :=
  match s with
  | c :: s' =>
      if isc "." c then
        match digits s' with
        | ([], _) => ([], s)
        | (d, r) => (c :: d, r)
        end
      else ([], s)
  | [] => ([], s)
  end.

(** The exponent, e or E, an optional sign and at least one digit, when
    present. *)
Definition scan_exp (s : str) : str * str :=
  match s with
  | c :: s' =>
      if isc "e" c || isc "E" c then
        let (sign, t) :=
          match s' with
          | g :: s'' => if isc "-" g || isc "+" g then ([g], s'') else ([], s')
          | [] => ([], s')
          end in
        match digits t with
        | ([], _) => ([], s)
        | (d, r) => (c :: sign ++ d, r)
        end
      else ([], s)
  | [] => ([], s)
  end.

(** What the decoder finds at a place of the text: a value and the rest
    of the text; or no value, which [json.loads] reports as a
    [JSONDecodeError]; or the failure of the decoder itself with another
    exception. *)
Inductive scanned :=
| Scanned (v : value) (rest : str)
| NoValue
| Failure (e : exn).

(** [sys.get_int_max_str_digits()]: [int] refuses a numeral with more
    digits, the sign not counted. *)
Definition int_max_str_digits : nat := 4300.

(** [sys.getrecursionlimit()]: the decoder enters one level for every
    array and every object, and raises beyond the limit.  The frames that are
    on the stack already when [json.loads] is called are not counted. *)
Definition recursion_limit : nat := 1000.

Definition too_many_digits (digits : nat) : exn :=
  Exception (u "Exceeds the limit (4300 digits) for integer string conversion: value has "
             ++ of_nat digits
             ++ u " digits; use sys.set_int_max_str_digits() to increase the limit").

Definition too_deep (what : string) : exn :=
  Exception (u "maximum recursion depth exceeded while decoding a JSON "
             ++ u what ++ u " from a unicode string").

Definition scan_number (s : str) : scanned :=
  match scan_integer s with
  | None => NoValue
  | Some (neg, d, r) =>
      let (frac, r1) := scan_frac r in
      let (exp, r2) := scan_exp r1 in
      let sign := if neg then u "-" else [] in
      if is_empty frac && is_empty exp
      then if int_max_str_digits <? length d
           then Failure (too_many_digits (length d))
           else Scanned (JInt (if neg then - int_of_digits d
                               else int_of_digits d)%Z) r2
      else Scanned (JFloat (sign ++ d ++ frac ++ exp)) r2
  end.

Definition hex_digit (c : N) : option N :=
  if is_digit c then Some (c - 48)%N
  else if ((97 <=? c) && (c <=? 102))%N then Some (c - 87)%N
  else if ((65 <=? c) && (c <=? 70))%N then Some (c - 55)%N
  else None.

Definition hex4 (a b c d : N) : option N :=
  match hex_digit a, hex_digit b, hex_digit c, hex_digit d with
  | Some x, Some y, Some z, Some w => Some (((x * 16 + y) * 16 + z) * 16 + w)%N
  | _, _, _, _ => None
  end.

Definition simple_escape (c : N) : option N :=
  if (c =? 34)%N then Some 34%N
  else if isc "\" c then Some 92%N
  else if isc "/" c then Some 47%N
  else if isc "b" c then Some 8%N
  else if isc "f" c then Some 12%N
  else if isc "n" c then Some 10%N
  else if isc "r" c then Some 13%N
  else if isc "t" c then Some 9%N
  else None.

Definition is_high_surrogate (c : N) : bool := ((55296 <=? c) && (c <=? 56319))%N.
Definition is_low_surrogate (c : N) : bool := ((56320 <=? c) && (c <=? 57343))%N.

(** The body of a string literal, after its opening quote: the decoded
    text and what follows the closing quote.  [acc] holds the decoded
    characters, last first.  Control characters are refused (strict mode). *)
Fixpoint scanstring (acc : str) (s : str) : option (str * str) :=
  match s with
  | [] => None
  | c :: s' =>
      if (c =? 34)%N then Some (reverse acc, s')
      else if isc "\" c then
        match s' with
        | [] => None
        | e :: s'' =>
            if isc "u" e then
              match s'' with
              | h1 :: h2 :: h3 :: h4 :: t =>
                  match hex4 h1 h2 h3 h4 with
                  | None => None
                  | Some uni =>
                      match t with
                      | b :: v :: g1 :: g2 :: g3 :: g4 :: t' =>
                          if is_high_surrogate uni && isc "\" b && isc "u" v then
                            match hex4 g1 g2 g3 g4 with
                            | None => None
                            | Some uni2 =>
                                if is_low_surrogate uni2
                                then scanstring
                                       ((65536 + ((uni - 55296) * 1024 + (uni2 - 56320)))%N :: acc) t'
                                else scanstring (uni :: acc) t
                            end
                          else scanstring (uni :: acc) t
                      | _ => scanstring (uni :: acc) t
                      end
                  end
              | _ => None
              end
            else
              match simple_escape e with
              | Some x => scanstring (x :: acc) s''
              | None => None
              end
        end
      else if (c <? 32)%N then None
      else scanstring (c :: acc) s'
  end.

(** One JSON value at the head of [s], and the rest of the input.
    [scan_items] reads the elements of an array after the first has been
    found to exist, [scan_pairs] the members of an object.  [depth] is the
    number of levels that may still be entered.  [fuel] bounds the number of
    nested calls; every call reads a character or follows one that did, so
    twice the length of the input is enough. *)
Fixpoint scan_once (fuel depth : nat) (s : str) : scanned :=
  match fuel with
  | 0 => NoValue
  | S fuel' =>
      match s with
      | [] => NoValue
      | c :: s' =>
          if (c =? 34)%N then
            match scanstring [] s' with
            | Some (x, r) => Scanned (JStr x) r
            | None => NoValue
            end
          else if isc "{" c then
            match depth with
            | 0 => Failure (too_deep "object")
            | S depth' =>
                match skip_ws s' with
                | d :: r => if isc "}" d then Scanned (JDict []) r
                            else scan_pairs fuel' depth' [] (d :: r)
                | [] => NoValue
                end
            end
          else if isc "[" c then
            match depth with
            | 0 => Failure (too_deep "array")
            | S depth' =>
                match skip_ws s' with
                | d :: r => if isc "]" d then Scanned (JList []) r
                            else scan_items fuel' depth' [] (d :: r)
                | [] => NoValue
                end
            end
          else if startswith (u "null") s then Scanned JNone (skipn 4 s)
          else if startswith (u "true") s then Scanned (JBool true) (skipn 4 s)
          else if startswith (u "false") s then Scanned (JBool false) (skipn 5 s)
          else
            match scan_number s with
            | NoValue =>
                if startswith (u "NaN") s then Scanned (JFloat (u "NaN")) (skipn 3 s)
                else if startswith (u "Infinity") s
                then Scanned (JFloat (u "Infinity")) (skipn 8 s)
                else if startswith (u "-Infinity") s
                then Scanned (JFloat (u "-Infinity")) (skipn 9 s)
                else NoValue
            | found => found
            end
      end
  end
with scan_items (fuel depth : nat) (acc : list value) (s : str) : scanned :=
  match fuel with
  | 0 => NoValue
  | S fuel' =>
      match scan_once fuel' depth s with
      | Scanned v r =>
          match skip_ws r with
          | c :: r' =>
              if isc "]" c then Scanned (JList (reverse (v :: acc))) r'
              else if isc "," c
              then scan_items fuel' depth (v :: acc) (skip_ws r')
              else NoValue
          | [] => NoValue
          end
      | other => other
      end
  end
with scan_pairs (fuel depth : nat) (acc : dict) (s : str) : scanned :=
  match fuel with
  | 0 => NoValue
  | S fuel' =>
      match s with
      | q :: s' =>
          if (q =? 34)%N then
            match scanstring [] s' with
            | None => NoValue
            | Some (key, r) =>
                match skip_ws r with
                | c :: r' =>
                    if isc ":" c then
                      match scan_once fuel' depth (skip_ws r') with
                      | Scanned v r2 =>
                          match skip_ws r2 with
                          | d :: r3 =>
                              if isc "}" d
                              then Scanned (JDict (dict_set acc key v)) r3
                              else if isc "," d
                              then scan_pairs fuel' depth (dict_set acc key v)
                                     (skip_ws r3)
                              else NoValue
                          | [] => NoValue
                          end
                      | other => other
                      end
                    else NoValue
                | [] => NoValue
                end
            end
          else NoValue
      | [] => NoValue
      end
  end.

(** [json.loads(s)]: one value, with white space allowed around it and
    nothing else.  A text that is not JSON gives a [JSONDecodeError], whose
    message goes to the log only and is not modelled; a numeral that is too
    long and a nesting that is too deep give the exceptions of [int] and of
    the interpreter. *)
Definition json_loads (s : str) : result value :=
  match scan_once (2 * length s + 2) recursion_limit (skip_ws s) with
  | Scanned v r =>
      match skip_ws r with
      | [] => Ok v
      | _ => Raise (JSONDecodeError (u "Extra data"))
      end
  | NoValue => Raise (JSONDecodeError (u "Expecting value"))
  | Failure e => Raise e
  end.

End Json.
Import Json.

(** ** ResponseParser: lines 155-174 of [analyze_contract_with_llm] *)

(** The text from the first occurrence of [a] on. *)
Fixpoint from_first (a : ascii) (s : str) : option str :=
  match s with
  | [] => None
  | c :: s' => if isc a c then Some s else from_first a s'
  end.

(** The text up to and including the last occurrence of [a]. *)
Fixpoint upto_last (a : ascii) (s : str) : option str :=
  match s with
  | [] => None
  | c :: s' =>
      match upto_last a s' with
      | Some p => Some (c :: p)
      | None => if isc a c then Some [c] else None
      end
  end.

(** [re.search(r'\[.*\]', response, re.DOTALL)], as the matched text: the
    leftmost opening bracket that has a closing bracket after it, and, the
    star being greedy and the dot matching every character, everything up to
    the last closing bracket. *)
Definition re_search_array (response : str) : option str :=
  match from_first "[" response with
  | Some t => upto_last "]" t
  | None => None
  end.

(** The findings one response adds to [all_analyses].  The outer handler
    takes a [JSONDecodeError] only; the inner one takes everything and goes
    on to the next chunk. *)
Definition parse_response (response : str) : result (list value) :=
  match json_loads (strip response) with
  | Ok chunk_analysis =>
      match chunk_analysis with
      | JList items => Ok items
      | _ => Ok []
      end
  | Raise (JSONDecodeError _) =>
      let attempt :=
        match re_search_array response with
        | Some json_match =>
            match json_loads json_match with
            | Ok (JList items) => Ok items
            | Ok _ => Ok []
            | Raise e => Raise e
            end
        | None => Ok []
        end in
      match attempt with
      | Ok items => Ok items
      | Raise _ => Ok []
      end
  | Raise e => Raise e
  end.

(** Positions and slices, as the specification words the second attempt. *)

(** [s.find(a)] *)
Fixpoint find (a : ascii) (s : str) : option nat :=
  match s with
  | [] => None
  | c :: s' =>
      if isc a c then Some 0
      else match find a s' with Some i => Some (S i) | None => None end
  end.

(** [s.rfind(a)] *)
Fixpoint rfind (a : ascii) (s : str) : option nat :=
  match s with
  | [] => None
  | c :: s' =>
      match rfind a s' with
      | Some i => Some (S i)
      | None => if isc a c then Some 0 else None
      end
  end.

(** [s[i:j]] for positions within the string. *)
Definition slice (s : str) (i j : nat) : str := firstn (j - i) (skipn i s).

(** ** ClauseExtractionClient and AnalysisAggregator *)

Definition dq : str := [34%N].

(** The prompt of chunk [i] (counted from 0) out of [total]. *)
Definition prompt (i total : nat) (chunk : str) : str :=
  u "Analyze the following contract text for risky or unfavorable clauses:

" ++ chunk ++ u "

Return your analysis as a valid JSON array. Each risky clause should be an object with exactly these fields:
- clause_text: The exact problematic text
- issue_detected: Brief issue title
- explanation: Why it's risky in plain language
- suggested_alternative: Better alternative clause
- risk_level: " ++ dq ++ u "High" ++ dq ++ u ", " ++ dq ++ u "Medium" ++ dq
  ++ u ", or " ++ dq ++ u "Low" ++ dq ++ u "

If this is chunk " ++ of_nat (i + 1) ++ u " of " ++ of_nat total
  ++ u ", focus on complete clauses only.".

Definition bytes := list Byte.byte.

(** An uploaded file: its name and the outcome of [await file.read()]. *)
Record UploadFile := {
  filename : str;
  read : result bytes
}.

(** A document of the collection [contract_analyses]. *)
Record Document := {
  doc_filename : str;
  doc_analysis_results : list value;
  doc_processed_at : str;
  doc_id : str
}.

Definition Store := list Document.

(** What one request reads from its surroundings: the environment variable
    with the API key, the two identifiers drawn with [uuid.uuid4()], the
    time of [datetime.now(timezone.utc).isoformat()], and how the database
    answers the insert of a document: it takes it, or the driver or the
    server raises (a value BSON cannot encode, a document that is too
    large, a lost connection). *)
Record World := {
  EMERGENT_LLM_KEY : option str;
  session_uuid : str;
  record_uuid : str;
  utc_now : str;
  insert_outcome : Document -> result unit
}.

(** [insert_one]: the collection with one more document, or the exception
    of the database with nothing stored. *)
Definition insert_one (w : World) (db : Store) (d : Document) : result Store :=
  match insert_outcome w d with
  | Ok _ => Ok (db ++ [d])
  | Raise e => Raise e
  end.

(** The strings the response model takes for [processed_at: datetime]:
    a date [YYYY-MM-DD]; or a date, a [T] or a space, a time [HH:MM] with
    optional seconds [:SS] and fraction of one to six digits, and an
    optional zone [Z], [+HH:MM], [-HH:MM], [+HHMM] or [-HHMM].  This covers
    what [isoformat] writes; other spellings are refused here. *)
Definition digit_value (c : N) : option nat :=
  if is_digit c then Some (N.to_nat (c - 48)) else None.

Definition number2 (a b : N) : option nat :=
  match digit_value a, digit_value b with
  | Some x, Some y => Some (10 * x + y)
  | _, _ => None
  end.

Definition number4 (a b c d : N) : option nat :=
  match number2 a b, number2 c d with
  | Some x, Some y => Some (100 * x + y)
  | _, _ => None
  end.

Definition is_leap (y : nat) : bool :=
  (y mod 4 =? 0) && (negb (y mod 100 =? 0) || (y mod 400 =? 0)).

Definition days_in_month (y m : nat) : nat :=
  match m with
  | 1 | 3 | 5 | 7 | 8 | 10 | 12 => 31
  | 4 | 6 | 9 | 11 => 30
  | 2 => if is_leap y then 29 else 28
  | _ => 0
  end.

(** A date at the head of [s]; what follows it. *)
Definition scan_date (s : str) : option str :=
  match s with
  | y1 :: y2 :: y3 :: y4 :: h1 :: m1 :: m2 :: h2 :: d1 :: d2 :: rest =>
      if isc "-" h1 && isc "-" h2 then
        match number4 y1 y2 y3 y4, number2 m1 m2, number2 d1 d2 with
        | Some y, Some m, Some d =>
            if (1 <=? y) && (1 <=? d) && (d <=? days_in_month y m)
            then Some rest else None
        | _, _, _ => None
        end
      else None
  | _ => None
  end.

(** An optional fraction of a second; what follows it. *)
Definition scan_fraction (s : str) : option str :=
  match s with
  | c :: rest =>
      if isc "." c then
        let (d, r) := digits rest in
        if (1 <=? length d) && (length d <=? 6) then Some r else None
      else Some s
  | [] => Some s
  end.

(** Hours and minutes, optional seconds and fraction; what follows. *)
Definition scan_time (s : str) : option str :=
  match s with
  | h1 :: h2 :: c :: m1 :: m2 :: rest =>
      if isc ":" c then
        match number2 h1 h2, number2 m1 m2 with
        | Some h, Some m =>
            if (h <? 24) && (m <? 60) then
              match rest with
              | c2 :: s1 :: s2 :: rest' =>
                  if isc ":" c2 then
                    match number2 s1 s2 with
                    | Some x => if x <? 60 then scan_fraction rest' else None
                    | None => None
                    end
                  else Some rest
              | _ => Some rest
              end
            else None
        | _, _ => None
        end
      else None
  | _ => None
  end.

Definition is_zone (s : str) : bool :=
  match s with
  | [] => true
  | [z] => isc "Z" z
  | [sign; h1; h2; m1; m2] =>
      (isc "+" sign || isc "-" sign) &&
      match number2 h1 h2, number2 m1 m2 with
      | Some h, Some m => (h <? 24) && (m <? 60)
      | _, _ => false
      end
  | [sign; h1; h2; c; m1; m2] =>
      (isc "+" sign || isc "-" sign) && isc ":" c &&
      match number2 h1 h2, number2 m1 m2 with
      | Some h, Some m => (h <? 24) && (m <? 60)
      | _, _ => false
      end
  | _ => false
  end.

Definition is_datetime (s : str) : bool :=
  match scan_date s with
  | None => false
  | Some [] => true
  | Some (sep :: t) =>
      (isc "T" sep || isc " " sep) &&
      match scan_time t with
      | Some zone => is_zone zone
      | None => false
      end
  end.

(** The response model: [analysis_results] is a [List[dict]]. *)
Record ContractAnalysisResult := {
  id : str;
  result_filename : str;
  analysis_results : list dict;
  processed_at : str
}.

(** Validation of a [List[dict]] field: every element has to be a dict. *)
Fixpoint validate_list_dict (xs : list value) : result (list dict) :=
  match xs with
  | [] => Ok []
  | JDict d :: xs' =>
      match validate_list_dict xs' with
      | Ok ds => Ok (d :: ds)
      | Raise e => Raise e
      end
  | _ :: _ => Raise (Exception (u "validation error for ContractAnalysisResult"))
  end.

(** The construction of the [ContractAnalysisResult] from [analysis_data]
    or from a stored document: the findings have to be dicts and the time a
    datetime string. *)
Definition make_result (d : Document) : result ContractAnalysisResult :=
  match validate_list_dict (doc_analysis_results d) with
  | Ok ds =>
      if is_datetime (doc_processed_at d)
      then Ok {| id := doc_id d; result_filename := doc_filename d;
                 analysis_results := ds; processed_at := doc_processed_at d |}
      else Raise (Exception (u "validation error for ContractAnalysisResult"))
  | Raise e => Raise e
  end.

(** The status a response carries. *)
Definition status_of {A} (r : result A) : nat :=
  match r with
  | Ok _ => 200
  | Raise (HTTPException status_code _) => status_code
  | Raise _ => 500
  end.

Section Pipeline.

(** The oracle: a chat session made from an API key and a session
    identifier, and one round trip, which answers or raises and leaves the
    session in a new state. *)
Variable chat : Type.
Variable LlmChat : str -> str -> chat.
Variable send_message : chat -> str -> result str * chat.

(** The PDF library: the texts of the pages ([None] where a page has no
    text), or the exception it raises on the way. *)
Variable pdf_pages : bytes -> result (list (option str)).

Definition get_llm_chat (w : World) : result chat :=
  match EMERGENT_LLM_KEY w with
  | Some api_key =>
      if is_empty api_key
      then Raise (HTTPException 500 (u "LLM API key not configured"))
      else Ok (LlmChat api_key (session_uuid w))
  | None => Raise (HTTPException 500 (u "LLM API key not configured"))
  end.

Definition extract_text_from_pdf (file_content : bytes) : result str :=
  match pdf_pages file_content with
  | Ok pages =>
      Ok (strip (fold_left
                   (fun text page_text =>
                      match page_text with
                      | Some (c :: p) => text ++ (c :: p) ++ [10%N]
                      | _ => text
                      end) pages []))
  | Raise e =>
      Raise (HTTPException 400 (u "Error processing PDF: " ++ str_exn e))
  end.

(** The loop [for i, chunk in enumerate(chunks)]. *)
Fixpoint analyze_chunks (total i : nat) (chunks : list str) (c : chat)
    (all_analyses : list value) : result (list value) :=
  match chunks with
  | [] => Ok all_analyses
  | chunk :: rest =>
      match send_message c (prompt i total chunk) with
      | (Raise e, _) => Raise e
      | (Ok response, c') =>
          match parse_response response with
          | Ok items => analyze_chunks total (S i) rest c' (all_analyses ++ items)
          | Raise e => Raise e
          end
      end
  end.

Definition analyze_contract_with_llm (w : World) (contract_text : str)
  : result (list value) :=
  let body :=
    match get_llm_chat w with
    | Ok c =>
        let chunks := chunk_text max_chunk_size contract_text in
        analyze_chunks (length chunks) 0 chunks c []
    | Raise e => Raise e
    end in
  match body with
  | Ok all_analyses => Ok all_analyses
  | Raise e => Raise (HTTPException 500 (u "Analysis failed: " ++ str_exn e))
  end.

(** The two checks on the file name, lines 191-196. *)
Definition check_filename (name : str) : result unit :=
  if negb (endswith (lower name) (u ".pdf"))
  then Raise (HTTPException 400 (u "Only PDF files are currently supported"))
  else if is_empty name
  then Raise (HTTPException 400 (u "No filename provided"))
  else Ok tt.

(** The body of the [try] of [upload_contract], lines 199-224. *)
Definition upload_body (w : World) (file : UploadFile) (db : Store)
  : result ContractAnalysisResult * Store :=
  match read file with
  | Raise e => (Raise e, db)
  | Ok file_content =>
      if is_empty file_content
      then (Raise (HTTPException 400 (u "Empty file uploaded")), db)
      else
        match extract_text_from_pdf file_content with
        | Raise e => (Raise e, db)
        | Ok contract_text =>
            if is_empty (strip contract_text)
            then (Raise (HTTPException 400
                           (u "No text could be extracted from the PDF")), db)
            else
              match analyze_contract_with_llm w contract_text with
              | Raise e => (Raise e, db)
              | Ok results =>
                  let analysis_data :=
                    {| doc_filename := filename file;
                       doc_analysis_results := results;
                       doc_processed_at := utc_now w;
                       doc_id := record_uuid w |} in
                  match insert_one w db analysis_data with
                  | Raise e => (Raise e, db)
                  | Ok db' => (make_result analysis_data, db')
                  end
              end
        end
  end.

Definition upload_contract (w : World) (file : UploadFile) (db : Store)
  : result ContractAnalysisResult * Store :=
  match check_filename (filename file) with
  | Raise e => (Raise e, db)
  | Ok _ =>
      match upload_body w file db with
      | (Ok r, db') => (Ok r, db')
      | (Raise (HTTPException status_code detail), db') =>
          (Raise (HTTPException status_code detail), db')
      | (Raise e, db') =>
          (Raise (HTTPException 500 (u "Processing failed: " ++ str_exn e)), db')
      end
  end.

(** The answers of the oracle to the prompts of [chunks], one after the
    other in one session. *)
Fixpoint oracle_replies (total i : nat) (chunks : list str) (c : chat)
  : list (result str) :=
  match chunks with
  | [] => []
  | chunk :: rest =>
      let (reply, c') := send_message c (prompt i total chunk) in
      reply :: oracle_replies total (S i) rest c'
  end.

End Pipeline.

(** ** Vocabulary of the statements *)

Definition no_space (w : str) : Prop := Forall (fun c => isspace c = false) w.

(** A word of [split]: not empty, and free of white space. *)
Definition is_word (w : str) : Prop := w <> [] /\ no_space w.

(** The words a loop state holds: those of the finished chunks, then those
    of the chunk in the making. *)
Definition words_of (st : chunker_state) : list str :=
  let '(chunks, current_chunk, _) := st in
  concat (map split chunks) ++ current_chunk.

Definition pending_words (st : chunker_state) : list str :=
  let '(_, current_chunk, _) := st in current_chunk.

(** A text whose second chunk comes out one character over the budget:
    15000 times a, a space, 14999 times b, a space, and c. *)
Definition overlong_text : str :=
  repeat 97%N max_chunk_size ++ u " " ++ repeat 98%N (max_chunk_size - 1) ++ u " c".

(** What the bound on chunks allows: within the budget, or one word. *)
Definition within_budget_or_word (budget : nat) (chunk : str) : bool :=
  (length chunk <=? budget) || (length (split chunk) <=? 1).

(** What does hold of every chunk: one character of slack, or one word. *)
Definition chunk_ok (budget : nat) (chunk : str) : Prop :=
  length chunk <= budget + 1 \/ is_word chunk.

(** The invariant of the chunker's loop. *)
Definition chunker_inv (budget : nat) (st : chunker_state) : Prop :=
  let '(chunks, current_chunk, current_length) := st in
  Forall (chunk_ok budget) chunks /\
  Forall is_word current_chunk /\
  (current_chunk = [] \/
   (length (join (u " ") current_chunk) <= current_length /\
    (current_length <= budget + 1 \/ exists w, current_chunk = [w]))).

(** ** Stand-ins for the oracle and the PDF library, for the examples *)

(** A session that counts its calls. *)
Definition example_chat (api_key session_id : str) : nat := 0.

(** An oracle that gives the same answer to every prompt. *)
Definition constant_oracle (answer : str) (c : nat) (p : str)
  : result str * nat := (Ok answer, S c).

(** An oracle that answers [n] calls and fails from then on. *)
Definition failing_oracle (n : nat) (answer : str) (c : nat) (p : str)
  : result str * nat :=
  (if c <? n then Ok answer else Raise (Exception (u "Connection error.")), S c).

(** A PDF library that yields the same outcome for every file. *)
Definition example_pdf (outcome : result (list (option str))) (b : bytes)
  : result (list (option str)) := outcome.

(** A database that takes a document when its integers fit in 64 bits. *)
Fixpoint ints_fit (v : value) : bool :=
  match v with
  | JInt n => ((- 2 ^ 63 <=? n) && (n <? 2 ^ 63))%Z
  | JList items => forallb ints_fit items
  | JDict pairs => forallb (fun kv => ints_fit (snd kv)) pairs
  | _ => true
  end.

Definition example_insert (d : Document) : result unit :=
  if forallb ints_fit (doc_analysis_results d) then Ok tt
  else Raise (Exception (u "MongoDB can only handle up to 8-byte ints")).

Definition example_world : World :=
  {| EMERGENT_LLM_KEY := Some (u "sk-example");
     session_uuid := u "5b2c";
     record_uuid := u "9f1e";
     utc_now := u "2025-01-01T00:00:00+00:00";
     insert_outcome := example_insert |}.

Definition example_file : UploadFile :=
  {| filename := u "lease.pdf"; read := Ok [Byte.x25; Byte.x50; Byte.x44; Byte.x46] |}.

Definition is_raise {A} (r : result A) : bool :=
  match r with Raise _ => true | Ok _ => false end.

(** One finding, as the oracle would write it. *)
Definition example_answer : str :=
  uq "[{'clause_text': 'The Company may terminate at any time.', 'risk_level': 'High'}]".

Definition example_finding : value :=
  JDict [(u "clause_text", JStr (u "The Company may terminate at any time."));
         (u "risk_level", JStr (u "High"))].

(** The shape the specification gives a finding: the five fields hold
    strings, and [risk_level] is one of the three levels. *)
Definition string_field (d : dict) (k : str) : bool :=
  match dict_get d k with
  | Some (JStr _) => true
  | _ => false
  end.

Definition all_fields_strings (d : dict) : bool :=
  string_field d (u "clause_text") && string_field d (u "issue_detected") &&
  string_field d (u "explanation") && string_field d (u "suggested_alternative") &&
  string_field d (u "risk_level").

Definition risk_level_listed (d : dict) : bool :=
  match dict_get d (u "risk_level") with
  | Some (JStr s) =>
      str_eqb s (u "High") || str_eqb s (u "Medium") || str_eqb s (u "Low")
  | _ => false
  end.

Definition finding_shape (d : dict) : bool :=
  all_fields_strings d && risk_level_listed d.

(** An answer with two objects: the first has a level outside the three,
    the second a number where a string is expected. *)
Definition loose_answer : str :=
  uq "[{'clause_text': 'a', 'issue_detected': 'b', 'explanation': 'c', 'suggested_alternative': 'd', 'risk_level': 'Critical'}, {'clause_text': 'a', 'issue_detected': 'b', 'explanation': 5, 'suggested_alternative': 'd', 'risk_level': 'High'}]".

(** The document [upload_contract] stores for a result it returns. *)
Definition document_of (r : ContractAnalysisResult) : Document :=
  {| doc_filename := result_filename r;
     doc_analysis_results := map JDict (analysis_results r);
     doc_processed_at := processed_at r;
     doc_id := id r |}.

(** A file the PDF library cannot open. *)
Definition broken_pdf : bytes -> result (list (option str)) :=
  example_pdf (Raise (Exception (u "No /Root object! - Is this really a PDF?"))).

(** The parser as the specification words it: the array the trimmed answer
    decodes to; when the answer does not decode, the array that the text
    from the first opening bracket to the last closing bracket decodes to;
    the empty list in every other case. *)
Definition recovered_findings (response : str) : list value :=
  match json_loads (strip response) with
  | Ok (JList items) => items
  | Ok _ => []
  | Raise _ =>
      match find "[" response, rfind "]" response with
      | Some i, Some j =>
          match json_loads (slice response i (S j)) with
          | Ok (JList items) => items
          | _ => []
          end
      | _, _ => []
      end
  end.

(** ** Further vocabulary: the chunker *)

(** A chunk the word loop makes: one word or more, single spaces between. *)
Definition packed (chunk : str) : Prop :=
  exists ws, ws <> [] /\ Forall is_word ws /\ chunk = join (u " ") ws.

(** The finished chunks are packed and the pending words are words. *)
Definition chunker_shape (st : chunker_state) : Prop :=
  let '(chunks, current_chunk, _) := st in
  Forall packed chunks /\ Forall is_word current_chunk.

Definition all_space (s : str) : bool := forallb isspace s.

(** ** Further vocabulary: the upload endpoint *)

(** No usable API key: the variable is unset or empty. *)
Definition key_missing (w : World) : bool :=
  match EMERGENT_LLM_KEY w with
  | Some (_ :: _) => false
  | _ => true
  end.

Definition is_dict (v : value) : bool :=
  match v with JDict _ => true | _ => false end.

(** The dictionary [analysis_data] of [upload_contract]. *)
Definition analysis_data (w : World) (file : UploadFile) (results : list value)
  : Document :=
  {| doc_filename := filename file;
     doc_analysis_results := results;
     doc_processed_at := utc_now w;
     doc_id := record_uuid w |}.

(** The text a request hands to the analysis, when it passes every check
    before it: the name, the read, the size, the extraction, the text. *)
Definition text_to_analyze (pdf_pages : bytes -> result (list (option str)))
    (file : UploadFile) : option str :=
  match check_filename (filename file), read file with
  | Ok _, Ok file_content =>
      if is_empty file_content then None
      else match extract_text_from_pdf pdf_pages file_content with
           | Ok contract_text =>
               if is_empty (strip contract_text) then None
               else Some contract_text
           | Raise _ => None
           end
  | _, _ => None
  end.

(** ** The record endpoints: [get_analyses], [get_analysis], [delete_analysis] *)

(** The filter [{"id": analysis_id}]. *)
Definition has_id (analysis_id : str) (d : Document) : bool :=
  str_eqb (doc_id d) analysis_id.

(** [find_one]: the first document that matches, in the order of the
    collection. *)
Definition find_one (db : Store) (analysis_id : str) : option Document :=
  List.find (has_id analysis_id) db.

(** [delete_one]: the first document that matches is removed; the result
    is [deleted_count] and the collection that is left. *)
Fixpoint delete_one (db : Store) (analysis_id : str) : nat * Store :=
  match db with
  | [] => (0, [])
  | d :: db' =>
      if has_id analysis_id d then (1, db')
      else let (deleted_count, rest) := delete_one db' analysis_id in
           (deleted_count, d :: rest)
  end.

(** [GET /analysis/{analysis_id}] *)
Definition get_analysis (db : Store) (analysis_id : str)
  : result ContractAnalysisResult :=
  match find_one db analysis_id with
  | None => Raise (HTTPException 404 (u "Analysis not found"))
  | Some analysis =>
      match make_result analysis with
      | Ok r => Ok r
      | Raise (HTTPException status_code detail) =>
          Raise (HTTPException status_code detail)
      | Raise _ => Raise (HTTPException 500 (u "Failed to fetch analysis"))
      end
  end.

(** [DELETE /analysis/{analysis_id}]: the message of the response, and the
    collection afterwards. *)
Definition delete_analysis (db : Store) (analysis_id : str)
  : result str * Store :=
  let (deleted_count, db') := delete_one db analysis_id in
  if deleted_count =? 0
  then (Raise (HTTPException 404 (u "Analysis not found")), db')
  else (Ok (u "Analysis deleted successfully"), db').

(** The list comprehension of [get_analyses]: the first document that
    fails validation raises. *)
Fixpoint make_results (analyses : list Document)
  : result (list ContractAnalysisResult) :=
  match analyses with
  | [] => Ok []
  | analysis :: rest =>
      match make_result analysis with
      | Raise e => Raise e
      | Ok r =>
          match make_results rest with
          | Ok rs => Ok (r :: rs)
          | Raise e => Raise e
          end
      end
  end.

(** [GET /analyses].  [sort_newest_first] stands for the database's
    [find().sort("processed_at", -1)]; [to_list(100)] keeps the first
    hundred.  Every exception becomes a 500. *)
Definition get_analyses (sort_newest_first : Store -> list Document)
    (db : Store) : result (list ContractAnalysisResult) :=
  match make_results (firstn 100 (sort_newest_first db)) with
  | Ok rs => Ok rs
  | Raise _ => Raise (HTTPException 500 (u "Failed to fetch analyses"))
  end.

(** A sort for the examples: insertion by [processed_at], latest first,
    the strings compared character by character. *)
Fixpoint str_leb (a b : str) : bool :=
  match a, b with
  | [], _ => true
  | _ :: _, [] => false
  | x :: a', y :: b' =>
      if (x <? y)%N then true
      else if (y <? x)%N then false
      else str_leb a' b'
  end.

Fixpoint insert_newest (d : Document) (l : list Document) : list Document :=
  match l with
  | [] => [d]
  | e :: l' =>
      if str_leb (doc_processed_at e) (doc_processed_at d) then d :: l
      else e :: insert_newest d l'
  end.

Definition example_sort (db : Store) : list Document :=
  fold_right insert_newest [] db.

(** A document is valid when its findings are all objects. *)
Definition valid_document (d : Document) : bool :=
  forallb is_dict (doc_analysis_results d).

Definition example_document (name ident time : string) (results : list value)
  : Document :=
  {| doc_filename := u name; doc_analysis_results := results;
     doc_processed_at := u time; doc_id := u ident |}.

(** ** [health_check] *)

Definition healthy (w : World) : value :=
  JDict [(u "status", JStr (u "healthy"));
         (u "database", JStr (u "connected"));
         (u "llm", JStr (u "connected"));
         (u "timestamp", JStr (utc_now w))].

Definition unhealthy (e : exn) (w : World) : value :=
  JDict [(u "status", JStr (u "unhealthy"));
         (u "error", JStr (str_exn e));
         (u "timestamp", JStr (utc_now w))].

Definition connection_test : str := u "Hello, this is a connection test.".

(** [GET /health]: the status and the body of the response.  [ping] is the
    outcome of [db.command("ping")]. *)
Definition health_check (chat : Type) (LlmChat : str -> str -> chat)
    (send_message : chat -> str -> result str * chat)
    (ping : result unit) (w : World) : nat * value :=
  match ping with
  | Raise e => (503, unhealthy e w)
  | Ok _ =>
      match get_llm_chat LlmChat w with
      | Raise e => (503, unhealthy e w)
      | Ok c =>
          match fst (send_message c connection_test) with
          | Raise e => (503, unhealthy e w)
          | Ok _ => (200, healthy w)
          end
      end
  end.

(** ** Answers on which [json.loads] raises something else than a
    [JSONDecodeError] *)

(** An array that holds one integer of 4301 digits. *)
Definition long_integer_answer : str := u "[" ++ repeat 49%N 4301 ++ u "]".

(** An integer of 4301 digits, then an array in plain sight. *)
Definition long_integer_prose : str := repeat 49%N 4301 ++ u " [1]".

(** 1001 opening brackets and as many closing ones. *)
Definition deep_answer : str := repeat 91%N 1001 ++ repeat 93%N 1001.

(** What the two handlers at the end of [upload_contract] raise for an
    exception of the body: an [HTTPException] as it is, anything else as a
    500. *)
Definition reraised (e : exn) : exn :=
  match e with
  | HTTPException status_code detail => HTTPException status_code detail
  | _ => HTTPException 500 (u "Processing failed: " ++ str_exn e)
  end.

(** A stored document the listing can return: its findings are objects and
    its time is a datetime string. *)
Definition listable (d : Document) : bool :=
  valid_document d && is_datetime (doc_processed_at d).

(** * Properties *)

(** ** The building blocks on small inputs *)

Example split_example :
  split (u "  the quick   brown fox ") = [u "the"; u "quick"; u "brown"; u "fox"].
Proof. reflexivity. Qed.

Example strip_example : strip (u "  [1, 2]  ") = u "[1, 2]".
Proof. reflexivity. Qed.

Example chunk_text_example :
  chunk_text 9 (u "the quick  brown fox") = [u "the quick"; u "brown fox"].
Proof. reflexivity. Qed.

Example json_loads_array :
  json_loads (uq " [ {'a': 1, 'b': [true, null, -2.5e3], 'a': 'z'} ] ")
  = Ok (JList [JDict [(u "a", JStr (u "z"));
                      (u "b", JList [JBool true; JNone; JFloat (u "-2.5e3")])]]).
Proof. vm_compute. reflexivity. Qed.

Example json_loads_trailing_comma :
  is_raise (json_loads (uq "[1, 2,]")) = true.
Proof. vm_compute. reflexivity. Qed.

Example json_loads_two_arrays :
  is_raise (json_loads (uq "[1] and [2]")) = true.
Proof. vm_compute. reflexivity. Qed.

Example json_loads_nested :
  json_loads (uq "[[[[]]], {'k': {'k': [0]}}]")
  = Ok (JList [JList [JList [JList []]];
               JDict [(u "k", JDict [(u "k", JList [JInt 0])])]]).
Proof. vm_compute. reflexivity. Qed.

Example re_search_array_example :
  re_search_array (u "Sure: [1, [2]] and more ] text")
  = Some (u "[1, [2]] and more ]").
Proof. reflexivity. Qed.

Example re_search_array_wrong_order :
  re_search_array (u "] then [") = None.
Proof. reflexivity. Qed.

(** ** Words, [split] and [join] *)

Lemma reverse_rev {A} (l : list A) : reverse l = rev l.
Proof. unfold reverse. symmetry. apply rev_alt. Qed.

Lemma flush_rev_word (w : str) : w <> [] -> flush (rev w) = [w].
Proof.
  intros Hw. unfold flush. rewrite reverse_rev.
  destruct (rev w) eqn:E.
  - apply (f_equal (@rev N)) in E. rewrite rev_involutive in E. contradiction.
  - rewrite <- E, rev_involutive. reflexivity.
Qed.

Lemma split_from_no_space (w : str) :
  no_space w ->
  forall cur s, split_from cur (w ++ s) = split_from (rev w ++ cur) s.
Proof.
  induction 1 as [|c w Hc _ IH]; intros cur s; simpl.
  - reflexivity.
  - rewrite Hc, IH, <- app_assoc. reflexivity.
Qed.

Lemma split_from_space (c : N) (cur s : str) :
  isspace c = true -> split_from cur (c :: s) = flush cur ++ split_from [] s.
Proof. intros H. simpl. rewrite H. reflexivity. Qed.

Lemma split_word (w : str) : is_word w -> split w = [w].
Proof.
  intros [Hne Hns]. unfold split.
  rewrite <- (app_nil_r w) at 1.
  rewrite split_from_no_space by assumption.
  simpl. rewrite app_nil_r. apply flush_rev_word, Hne.
Qed.

Lemma split_word_space (w s : str) :
  is_word w -> split (w ++ u " " ++ s) = w :: split s.
Proof.
  intros [Hne Hns]. unfold split.
  rewrite split_from_no_space by assumption.
  change (u " " ++ s) with (32%N :: s).
  rewrite split_from_space by reflexivity.
  rewrite app_nil_r, flush_rev_word by assumption. reflexivity.
Qed.

Lemma split_join (ws : list str) :
  Forall is_word ws -> split (join (u " ") ws) = ws.
Proof.
  induction 1 as [|w ws Hw Hws IH].
  - reflexivity.
  - destruct ws as [|w2 ws].
    + simpl. apply split_word, Hw.
    + change (join (u " ") (w :: w2 :: ws))
        with (w ++ u " " ++ join (u " ") (w2 :: ws)).
      rewrite split_word_space by assumption. now rewrite IH.
Qed.

Lemma flush_words (cur : str) : no_space cur -> Forall is_word (flush cur).
Proof.
  intros H. destruct cur as [|c cur]; unfold flush; constructor; [|constructor].
  rewrite reverse_rev. simpl. split.
  - intros E. apply (f_equal (@length N)) in E.
    rewrite length_app in E. simpl in E. lia.
  - unfold no_space. apply Forall_app. split.
    + apply Forall_rev. now inversion H.
    + constructor; [now inversion H | constructor].
Qed.

Lemma split_from_words (s cur : str) :
  no_space cur -> Forall is_word (split_from cur s).
Proof.
  revert cur. induction s as [|c s IH]; intros cur Hcur; simpl.
  - now apply flush_words.
  - destruct (isspace c) eqn:Ec.
    + apply Forall_app. split; [now apply flush_words | apply IH; constructor].
    + apply IH. now constructor.
Qed.

Lemma split_words (s : str) : Forall is_word (split s).
Proof. apply split_from_words. constructor. Qed.

(** ** The chunker keeps the words *)

Lemma chunk_word_words (budget : nat) (st : chunker_state) (word : str) :
  Forall is_word (pending_words st) -> is_word word ->
  words_of (chunk_word budget st word) = words_of st ++ [word] /\
  Forall is_word (pending_words (chunk_word budget st word)).
Proof.
  destruct st as [[chunks cur] len]. simpl. intros Hcur Hw.
  destruct ((budget <? len + length word) && negb (is_empty cur)); simpl.
  - split; [|constructor; [assumption | constructor]].
    rewrite map_app, concat_app. simpl.
    rewrite split_join by assumption.
    now rewrite app_nil_r.
  - split; [now rewrite app_assoc|].
    apply Forall_app. split; [assumption | constructor; [assumption | constructor]].
Qed.

Lemma chunk_words_words (budget : nat) (words : list str) :
  Forall is_word words ->
  forall st, Forall is_word (pending_words st) ->
  words_of (chunk_words budget words st) = words_of st ++ words /\
  Forall is_word (pending_words (chunk_words budget words st)).
Proof.
  unfold chunk_words.
  induction 1 as [|w words Hw _ IH]; intros st Hst; simpl.
  - now rewrite app_nil_r.
  - destruct (chunk_word_words budget st Hst Hw) as [E P].
    destruct (IH _ P) as [E' P']. split; [|assumption].
    rewrite E', E, <- app_assoc. reflexivity.
Qed.

Lemma finish_chunks_words (st : chunker_state) :
  Forall is_word (pending_words st) ->
  concat (map split (finish_chunks st)) = words_of st.
Proof.
  destruct st as [[chunks cur] len].
  unfold finish_chunks, words_of, pending_words. intros Hcur.
  destruct (is_empty cur) eqn:E.
  - destruct cur; [|discriminate]. now rewrite app_nil_r.
  - rewrite map_app, concat_app. cbn [map concat].
    rewrite split_join by assumption. now rewrite app_nil_r.
Qed.

(** C8.  For every budget and every text, the words of the chunks, taken
    chunk after chunk, are the words of the text, each one whole, once and
    in place; joined with single spaces they give the same string as the
    words of the text. *)
Theorem chunk_text_keeps_words (budget : nat) (contract_text : str) :
  concat (map split (chunk_text budget contract_text)) = split contract_text /\
  join (u " ") (concat (map split (chunk_text budget contract_text)))
  = join (u " ") (split contract_text).
Proof.
  assert (H : concat (map split (chunk_text budget contract_text))
              = split contract_text).
  { unfold chunk_text. destruct (budget <? length contract_text).
    - destruct (@chunk_words_words budget (split contract_text)
                  (split_words contract_text) ([], [], 0)) as [E P];
        [constructor|].
      rewrite finish_chunks_words by assumption. now rewrite E.
    - simpl. apply app_nil_r. }
  split; [assumption | now rewrite H].
Qed.

(** C7.  A text no longer than the budget is returned as the one chunk,
    unchanged; the words are not even computed. *)
Theorem chunk_text_within_budget (budget : nat) (contract_text : str) :
  length contract_text <= budget ->
  chunk_text budget contract_text = [contract_text].
Proof.
  intros H. unfold chunk_text.
  destruct (Nat.ltb_spec budget (length contract_text)); [lia | reflexivity].
Qed.

Lemma chunk_text_within_budget_witness :
  length (u "Either party may terminate.") <= max_chunk_size /\
  chunk_text max_chunk_size (u "Either party may terminate.")
  = [u "Either party may terminate."].
Proof.
  split.
  - apply Nat.leb_le. vm_compute. reflexivity.
  - apply chunk_text_within_budget. apply Nat.leb_le. vm_compute. reflexivity.
Defined.

(** ** The bound the chunker does keep *)

Lemma join_snoc_length (cur : list str) (w : str) :
  cur <> [] ->
  length (join (u " ") (cur ++ [w])) = length (join (u " ") cur) + 1 + length w.
Proof.
  induction cur as [|a cur IH]; [congruence|]. intros _.
  destruct cur as [|b cur].
  - simpl. rewrite length_app. simpl. lia.
  - change (join (u " ") ((a :: b :: cur) ++ [w]))
      with (a ++ u " " ++ join (u " ") ((b :: cur) ++ [w])).
    change (join (u " ") (a :: b :: cur))
      with (a ++ u " " ++ join (u " ") (b :: cur)).
    rewrite !length_app, IH by discriminate.
    change (length (u " ")) with 1. lia.
Qed.

Ltac one_word := simpl; constructor; [assumption | constructor].

Lemma chunk_word_inv (budget : nat) (st : chunker_state) (word : str) :
  chunker_inv budget st -> is_word word ->
  chunker_inv budget (chunk_word budget st word).
Proof.
  destruct st as [[chunks cur] len]. unfold chunker_inv, chunk_word.
  intros (Hchunks & Hcur & Hlen) Hw.
  destruct (Nat.ltb_spec budget (len + length word)) as [Hlt|Hle];
    destruct cur as [|a cur]; cbn [is_empty negb andb].
  - repeat split; [assumption | one_word |].
    right. simpl. split; [lia | right; now exists word].
  - repeat split.
    + apply Forall_app. split; [assumption|]. constructor; [|constructor].
      destruct Hlen as [E|[HJ [Hb|[w E]]]]; [discriminate| |].
      * left. lia.
      * rewrite E. right. rewrite E in Hcur. now inversion Hcur.
    + one_word.
    + right. simpl. split; [lia | right; now exists word].
  - repeat split; [assumption | one_word |].
    right. simpl. split; [lia | right; now exists word].
  - repeat split; [assumption | |].
    + apply Forall_app. split; [assumption | one_word].
    + right. rewrite join_snoc_length by discriminate.
      destruct Hlen as [E|[HJ _]]; [discriminate|]. split; lia.
Qed.

Lemma chunk_words_inv (budget : nat) (words : list str) :
  Forall is_word words ->
  forall st, chunker_inv budget st ->
  chunker_inv budget (chunk_words budget words st).
Proof.
  unfold chunk_words.
  induction 1 as [|w words Hw _ IH]; intros st Hst; simpl; [assumption|].
  apply IH. now apply chunk_word_inv.
Qed.

(** Every chunk is at most one character over the budget, or is one word. *)
Lemma chunk_text_bound (budget : nat) (contract_text : str) :
  Forall (chunk_ok budget) (chunk_text budget contract_text).
Proof.
  unfold chunk_text.
  destruct (Nat.ltb_spec budget (length contract_text)) as [Hlt|Hle].
  - assert (I : chunker_inv budget
                  (chunk_words budget (split contract_text) ([], [], 0))).
    { apply chunk_words_inv; [apply split_words|].
      repeat split; [constructor | constructor | now left]. }
    destruct (chunk_words budget (split contract_text) ([], [], 0))
      as [[chunks cur] len].
    destruct I as (Hchunks & Hcur & Hlen). unfold finish_chunks.
    destruct cur as [|a cur]; cbn [is_empty]; [assumption|].
    apply Forall_app. split; [assumption|]. constructor; [|constructor].
    destruct Hlen as [E|[HJ [Hb|[w E]]]]; [discriminate| |].
    + left. lia.
    + rewrite E. right. rewrite E in Hcur. now inversion Hcur.
  - constructor; [|constructor]. left. lia.
Qed.

(** C4.  With the budget of the program, 15000, the text [overlong_text]
    has no word longer than the budget, and yet its second chunk holds two
    words and 15001 characters: the chunk opened after a flush counts its
    first word without the separator that the other branch adds. *)
Theorem chunk_text_exceeds_budget :
  chunk_text max_chunk_size overlong_text
  = [repeat 97%N max_chunk_size; repeat 98%N (max_chunk_size - 1) ++ u " c"] /\
  length (repeat 98%N (max_chunk_size - 1) ++ u " c") = max_chunk_size + 1 /\
  forallb (fun w => length w <=? max_chunk_size) (split overlong_text) = true /\
  forallb (within_budget_or_word max_chunk_size)
    (chunk_text max_chunk_size overlong_text) = false.
Proof. vm_compute. repeat split. Qed.

Example chunk_text_exceeds_small_budget :
  chunk_text 4 (u "aaaa bb cc") = [u "aaaa"; u "bb cc"].
Proof. reflexivity. Qed.

(** ** The response parser *)

Lemma from_first_find (a : ascii) (s : str) (i : nat) :
  find a s = Some i -> from_first a s = Some (skipn i s).
Proof.
  revert i. induction s as [|c s IH]; intros i; simpl; [discriminate|].
  destruct (isc a c).
  - intros [= <-]. reflexivity.
  - destruct (find a s) as [k|]; [|discriminate].
    intros [= <-]. simpl. now apply IH.
Qed.

Lemma from_first_none (a : ascii) (s : str) :
  find a s = None -> from_first a s = None.
Proof.
  induction s as [|c s IH]; simpl; [reflexivity|].
  destruct (isc a c); [discriminate|].
  destruct (find a s); [discriminate | auto].
Qed.

Lemma upto_last_rfind (a : ascii) (s : str) (j : nat) :
  rfind a s = Some j -> upto_last a s = Some (firstn (S j) s).
Proof.
  revert j. induction s as [|c s IH]; intros j; simpl; [discriminate|].
  destruct (rfind a s) as [k|] eqn:E.
  - intros [= <-]. now rewrite (IH k eq_refl).
  - assert (N0 : upto_last a s = None).
    { clear IH. induction s as [|d s IHs]; simpl in *; [reflexivity|].
      destruct (rfind a s); [discriminate|].
      destruct (isc a d); [discriminate|]. now rewrite IHs. }
    rewrite N0. destruct (isc a c); [|discriminate].
    intros [= <-]. reflexivity.
Qed.

Lemma upto_last_none (a : ascii) (s : str) :
  rfind a s = None -> upto_last a s = None.
Proof.
  induction s as [|d s IHs]; simpl; [reflexivity|].
  destruct (rfind a s); [discriminate|].
  destruct (isc a d); [discriminate|]. intros _. now rewrite IHs.
Qed.

Lemma rfind_skipn (a : ascii) (s : str) (i j : nat) :
  rfind a s = Some j -> i <= j -> rfind a (skipn i s) = Some (j - i).
Proof.
  revert i j. induction s as [|c s IH]; intros i j; [discriminate|].
  destruct i as [|i]; [intros H _; now rewrite Nat.sub_0_r|].
  simpl. destruct (rfind a s) as [k|].
  - intros [= <-] Hle. rewrite (IH i k eq_refl); [reflexivity | lia].
  - destruct (isc a c); [|discriminate]. intros [= <-]. lia.
Qed.

Lemma rfind_skipn_none (a : ascii) (s : str) (i j : nat) :
  rfind a s = Some j -> j < i -> rfind a (skipn i s) = None.
Proof.
  revert i j. induction s as [|c s IH]; intros i j; [discriminate|].
  destruct i as [|i]; [lia|].
  simpl. destruct (rfind a s) as [k|] eqn:E.
  - intros [= <-] Hlt. apply (IH i k); [reflexivity | lia].
  - intros _ _. clear IH. revert i.
    induction s as [|d s IHs]; intros i; [now destruct i|].
    simpl in E. destruct (rfind a s) eqn:E'; [discriminate|].
    destruct (isc a d) eqn:Ed; [discriminate|].
    destruct i as [|i]; simpl; [now rewrite E', Ed | now apply IHs].
Qed.

(** The match of the regular expression is the text between the first
    opening bracket and the last closing bracket, when they come in that
    order; there is no match in any other case. *)
Lemma re_search_array_brackets (response : str) :
  re_search_array response =
  match find "[" response, rfind "]" response with
  | Some i, Some j => if i <=? j then Some (slice response i (S j)) else None
  | _, _ => None
  end.
Proof.
  unfold re_search_array.
  destruct (find "[" response) as [i|] eqn:Ei.
  - rewrite (from_first_find _ _ Ei).
    destruct (rfind "]" response) as [j|] eqn:Ej.
    + destruct (Nat.leb_spec i j) as [Hle|Hlt].
      * rewrite (upto_last_rfind _ _ (rfind_skipn _ _ Ej Hle)).
        unfold slice. do 2 f_equal. lia.
      * apply upto_last_none. now apply (rfind_skipn_none _ _ Ej).
    + apply upto_last_none.
      clear Ei. revert i. induction response as [|c s IH]; intros i.
      * now destruct i.
      * simpl in Ej. destruct (rfind "]" s) eqn:E'; [discriminate|].
        destruct (isc "]" c) eqn:Ec; [discriminate|].
        destruct i as [|i]; simpl; [now rewrite E', Ec | now apply IH].
  - now rewrite from_first_none.
Qed.

(** The second attempt, with the match of the regular expression written
    as the text between the brackets. *)
Lemma parse_response_after_decode_error (response : str) (msg : str) :
  json_loads (strip response) = Raise (JSONDecodeError msg) ->
  parse_response response = Ok (recovered_findings response).
Proof.
  intros E. unfold parse_response, recovered_findings. rewrite E.
  rewrite re_search_array_brackets.
  destruct (find "[" response) as [i|]; [|reflexivity].
  destruct (rfind "]" response) as [j|]; [|reflexivity].
  destruct (Nat.leb_spec i j) as [Hle|Hlt].
  - now destruct (json_loads (slice response i (S j))) as [[]|].
  - unfold slice. replace (S j - i) with 0 by lia. reflexivity.
Qed.

Lemma parse_response_decoded (response : str) (v : value) :
  json_loads (strip response) = Ok v ->
  parse_response response = Ok (recovered_findings response).
Proof.
  intros E. unfold parse_response, recovered_findings. rewrite E.
  now destruct v.
Qed.

(** The strict decode is the one place where the parser can raise. *)
Lemma parse_response_raise (response : str) (e : exn) :
  parse_response response = Raise e ->
  json_loads (strip response) = Raise e /\
  forall msg, e <> JSONDecodeError msg.
Proof.
  destruct (json_loads (strip response)) as [v|e0] eqn:E.
  - rewrite (parse_response_decoded _ E). discriminate.
  - destruct e0 as [msg| |];
      try (rewrite (parse_response_after_decode_error _ E); discriminate);
      unfold parse_response; rewrite E; intros [= <-];
      (split; [reflexivity | discriminate]).
Qed.

Example parse_response_garbage :
  parse_response (u "I found no risky clauses.") = Ok [].
Proof. vm_compute. reflexivity. Qed.

Example parse_response_not_an_array :
  parse_response (uq "{'findings': [{'risk_level': 'High'}]}") = Ok [].
Proof. vm_compute. reflexivity. Qed.

Example parse_response_in_prose :
  parse_response
    (uq "Here is my analysis: [{'risk_level': 'High'}, {'risk_level': 'Low'}] I hope it helps.")
  = Ok [JDict [(u "risk_level", JStr (u "High"))];
        JDict [(u "risk_level", JStr (u "Low"))]].
Proof. vm_compute. reflexivity. Qed.

(** C3.  The parser does raise.  The handler of the first decode takes a
    [JSONDecodeError] only, and [json.loads] raises other exceptions: on an
    answer that holds an integer of 4301 digits and on an answer nested 1001
    levels deep, the parser raises, the analysis fails, and the upload is
    answered 500 with nothing stored.  The handler of the second decode
    takes everything; the first one misses these. *)
Theorem parse_response_raises_on_long_integer :
  parse_response long_integer_answer = Raise (too_many_digits 4301) /\
  parse_response deep_answer = Raise (too_deep "array") /\
  upload_contract example_chat (constant_oracle long_integer_answer)
    (example_pdf (Ok [Some (u "Either party may terminate.")]))
    example_world example_file []
  = (Raise (HTTPException 500
              (u "Analysis failed: " ++ str_exn (too_many_digits 4301))), []).
Proof. vm_compute. repeat split. Qed.

(** C5.  The second attempt is not always made.  On the answer made of an
    integer of 4301 digits followed by [ [1]], the first decode raises, the
    text between the first opening and the last closing bracket decodes to
    the array [[1]], and yet the parser raises instead of returning it:
    the exception of the first decode is not a [JSONDecodeError], so the
    handler that holds the second attempt is not entered. *)
Theorem bracket_extraction_skipped_on_long_integer :
  json_loads (strip long_integer_prose) = Raise (too_many_digits 4301) /\
  find "[" long_integer_prose = Some 4302 /\
  rfind "]" long_integer_prose = Some 4304 /\
  json_loads (slice long_integer_prose 4302 4305) = Ok (JList [JInt 1]) /\
  parse_response long_integer_prose = Raise (too_many_digits 4301).
Proof. vm_compute. repeat split. Qed.

(** ** The aggregator *)

Section Aggregator.

Variable chat : Type.
Variable send_message : chat -> str -> result str * chat.

Lemma analyze_chunks_ok (total : nat) (chunks : list str) :
  forall (i : nat) (c : chat) (acc : list value)
         (responses : list str) (per_chunk : list (list value)),
  oracle_replies send_message total i chunks c = map Ok responses ->
  Forall2 (fun r items => parse_response r = Ok items) responses per_chunk ->
  analyze_chunks send_message total i chunks c acc = Ok (acc ++ concat per_chunk).
Proof.
  induction chunks as [|chunk rest IH]; intros i c acc responses per_chunk.
  - destruct responses; [|discriminate]. intros _ HF. inversion HF.
    simpl. now rewrite app_nil_r.
  - simpl. destruct (send_message c (prompt i total chunk)) as [reply c'].
    destruct responses as [|r responses]; [discriminate|].
    simpl. intros [= -> Hrest] HF.
    inversion HF as [|? items ? per_rest Hp Hrest']; subst.
    rewrite Hp.
    rewrite IH with (responses := responses) (per_chunk := per_rest)
      by assumption.
    simpl. now rewrite app_assoc.
Qed.

Lemma analyze_chunks_raise (total : nat) (chunks : list str) :
  forall (i : nat) (c : chat) (acc : list value),
  existsb is_raise (oracle_replies send_message total i chunks c) = true ->
  exists e, analyze_chunks send_message total i chunks c acc = Raise e.
Proof.
  induction chunks as [|chunk rest IH]; intros i c acc; simpl; [discriminate|].
  destruct (send_message c (prompt i total chunk)) as [[response|e] c']; simpl.
  - intros H.
    destruct (parse_response response) as [items|e']; [now apply IH|].
    now exists e'.
  - intros _. now exists e.
Qed.

End Aggregator.

(** C9.  When the oracle answers every chunk, the analysis returns the
    findings of the first chunk, in the order of the answer, then those of
    the second, and so on: the concatenation of the parsed answers, with
    nothing removed, merged or moved. *)
Theorem analyze_concatenates_in_order
    (chat : Type) (LlmChat : str -> str -> chat)
    (send_message : chat -> str -> result str * chat)
    (w : World) (c : chat) (contract_text : str)
    (responses : list str) (per_chunk : list (list value)) :
  get_llm_chat LlmChat w = Ok c ->
  oracle_replies send_message
    (length (chunk_text max_chunk_size contract_text)) 0
    (chunk_text max_chunk_size contract_text) c = map Ok responses ->
  Forall2 (fun r items => parse_response r = Ok items) responses per_chunk ->
  analyze_contract_with_llm LlmChat send_message w contract_text
  = Ok (concat per_chunk).
Proof.
  intros Hc Hr HF. unfold analyze_contract_with_llm. rewrite Hc.
  now rewrite analyze_chunks_ok
    with (responses := responses) (per_chunk := per_chunk) by assumption.
Qed.

(** Two chunks that get the same answer give the finding twice. *)
Lemma analyze_concatenates_in_order_witness :
  analyze_contract_with_llm example_chat (constant_oracle example_answer)
    example_world overlong_text
  = Ok [example_finding; example_finding].
Proof.
  apply (@analyze_concatenates_in_order nat example_chat
           (constant_oracle example_answer) example_world 0 overlong_text
           [example_answer; example_answer]
           [[example_finding]; [example_finding]]).
  - reflexivity.
  - vm_compute. reflexivity.
  - repeat constructor.
Defined.

(** ** The upload endpoint *)

Lemma validate_list_dict_ok (xs : list value) (ds : list dict) :
  validate_list_dict xs = Ok ds -> xs = map JDict ds.
Proof.
  revert ds. induction xs as [|x xs IH]; intros ds; simpl.
  - intros [= <-]. reflexivity.
  - destruct x; try discriminate.
    destruct (validate_list_dict xs) as [ds'|]; [|discriminate].
    intros [= <-]. simpl. now rewrite (IH ds' eq_refl).
Qed.

Lemma make_result_ok (d : Document) (r : ContractAnalysisResult) :
  make_result d = Ok r -> d = document_of r.
Proof.
  unfold make_result.
  destruct (validate_list_dict (doc_analysis_results d)) as [ds|] eqn:E;
    [|discriminate].
  destruct (is_datetime (doc_processed_at d)); [|discriminate].
  intros [= <-]. apply validate_list_dict_ok in E.
  destruct d; simpl in *. unfold document_of. simpl. now subst.
Qed.

Section Upload.

Variable chat : Type.
Variable LlmChat : str -> str -> chat.
Variable send_message : chat -> str -> result str * chat.
Variable pdf_pages : bytes -> result (list (option str)).

Let analyze := analyze_contract_with_llm LlmChat send_message.
Let upload := upload_contract LlmChat send_message pdf_pages.

Lemma analyze_raises_http (w : World) (contract_text : str) (e : exn) :
  analyze w contract_text = Raise e ->
  exists e0, e = HTTPException 500 (u "Analysis failed: " ++ str_exn e0).
Proof.
  unfold analyze, analyze_contract_with_llm.
  destruct (get_llm_chat LlmChat w) as [c|e1].
  - destruct (analyze_chunks _ _ _ _ _ _) as [|e1]; [discriminate|].
    intros [= <-]. now exists e1.
  - intros [= <-]. now exists e1.
Qed.

Lemma upload_ok_inv (w : World) (file : UploadFile) (db db' : Store)
    (r : ContractAnalysisResult) :
  upload w file db = (Ok r, db') ->
  exists contract_text results,
    analyze w contract_text = Ok results /\
    make_result {| doc_filename := filename file;
                   doc_analysis_results := results;
                   doc_processed_at := utc_now w;
                   doc_id := record_uuid w |} = Ok r /\
    db' = db ++ [{| doc_filename := filename file;
                    doc_analysis_results := results;
                    doc_processed_at := utc_now w;
                    doc_id := record_uuid w |}].
Proof.
  unfold upload, upload_contract, upload_body. fold analyze.
  destruct (check_filename (filename file)); [|discriminate].
  destruct (read file) as [file_content|e]; [|destruct e; discriminate].
  destruct (is_empty file_content); [discriminate|].
  destruct (extract_text_from_pdf pdf_pages file_content) as [contract_text|e];
    [|destruct e; discriminate].
  destruct (is_empty (strip contract_text)); [discriminate|].
  destruct (analyze w contract_text) as [results|e] eqn:Ea;
    [|destruct e; discriminate].
  unfold insert_one.
  destruct (insert_outcome w _) as [[]|e]; [|destruct e; discriminate].
  destruct (make_result _) as [r0|e] eqn:Em; [|destruct e; discriminate].
  intros [= <- <-]. now exists contract_text, results.
Qed.

End Upload.

(** C1, as the code has it.  A result the endpoint returns comes with
    exactly one new document in the store, which holds the same findings;
    every finding is a JSON object, and the findings are, unchanged, what
    the analysis of the extracted text returned.  Their keys and values are
    not looked at. *)
Theorem upload_returns_what_it_stores
    (chat : Type) (LlmChat : str -> str -> chat)
    (send_message : chat -> str -> result str * chat)
    (pdf_pages : bytes -> result (list (option str)))
    (w : World) (file : UploadFile) (db db' : Store)
    (r : ContractAnalysisResult) :
  upload_contract LlmChat send_message pdf_pages w file db = (Ok r, db') ->
  db' = db ++ [document_of r] /\
  id r = record_uuid w /\ result_filename r = filename file /\
  processed_at r = utc_now w /\
  exists contract_text,
    analyze_contract_with_llm LlmChat send_message w contract_text
    = Ok (map JDict (analysis_results r)).
Proof.
  intros H.
  destruct (upload_ok_inv _ _ _ _ _ _ H) as (text & results & Ea & Em & ->).
  apply make_result_ok in Em.
  rewrite Em.
  injection Em as Ef Er Ep Ei.
  repeat split; try congruence.
  exists text. now rewrite <- Er.
Qed.

Lemma upload_returns_what_it_stores_witness :
  exists r,
    upload_contract example_chat (constant_oracle example_answer)
      (example_pdf (Ok [Some (u "The Company may terminate at any time.")]))
      example_world example_file []
    = (Ok r, [] ++ [document_of r]) /\
    map JDict (analysis_results r) = [example_finding].
Proof.
  eexists. split.
  - match goal with
    | |- ?lhs = _ =>
        let v := eval vm_compute in lhs in
        match v with
        | (Ok ?r, ?d) =>
            assert (E : lhs = (Ok r, d)) by (vm_compute; reflexivity);
            rewrite E;
            destruct (upload_returns_what_it_stores _ _ _ _ _ _ E) as [-> _]
        end
    end.
    reflexivity.
  - vm_compute. reflexivity.
Defined.

(** C1, as stated, fails: the endpoint stores and returns an answer whose
    first finding has the level [Critical] and whose second finding has a
    number for its explanation. *)
Lemma upload_returns_unvalidated_findings :
  exists r,
    upload_contract example_chat (constant_oracle loose_answer)
      (example_pdf (Ok [Some (u "The Company may terminate at any time.")]))
      example_world example_file []
    = (Ok r, [document_of r]) /\
    map risk_level_listed (analysis_results r) = [false; true] /\
    map all_fields_strings (analysis_results r) = [true; false] /\
    forallb finding_shape (analysis_results r) = false.
Proof.
  match goal with
  | |- exists r, ?call = _ /\ _ =>
      let v := eval vm_compute in call in
      match v with (Ok ?r0, _) => exists r0 end
  end.
  vm_compute. repeat split.
Qed.

(** C2.  When the request has passed the checks, the session exists, and
    the oracle raises on some chunk, the analysis raises, the endpoint
    answers 500, and the store is the one it was given. *)
Theorem oracle_failure_stores_nothing
    (chat : Type) (LlmChat : str -> str -> chat)
    (send_message : chat -> str -> result str * chat)
    (pdf_pages : bytes -> result (list (option str)))
    (w : World) (file : UploadFile) (db : Store)
    (file_content : bytes) (contract_text : str) (c : chat) :
  check_filename (filename file) = Ok tt ->
  read file = Ok file_content ->
  is_empty file_content = false ->
  extract_text_from_pdf pdf_pages file_content = Ok contract_text ->
  is_empty (strip contract_text) = false ->
  get_llm_chat LlmChat w = Ok c ->
  existsb is_raise
    (oracle_replies send_message
       (length (chunk_text max_chunk_size contract_text)) 0
       (chunk_text max_chunk_size contract_text) c) = true ->
  exists e,
    analyze_contract_with_llm LlmChat send_message w contract_text
    = Raise (HTTPException 500 (u "Analysis failed: " ++ str_exn e)) /\
    upload_contract LlmChat send_message pdf_pages w file db
    = (Raise (HTTPException 500 (u "Analysis failed: " ++ str_exn e)), db).
Proof.
  intros Hname Hread Hne Htext Hstrip Hchat Hfail.
  destruct (analyze_chunks_raise send_message _ _ _ c [] Hfail) as [e He].
  exists e.
  assert (Ha : analyze_contract_with_llm LlmChat send_message w contract_text
               = Raise (HTTPException 500 (u "Analysis failed: " ++ str_exn e))).
  { unfold analyze_contract_with_llm. now rewrite Hchat, He. }
  split; [assumption|].
  unfold upload_contract, upload_body.
  now rewrite Hname, Hread, Hne, Htext, Hstrip, Ha.
Qed.

(** The oracle fails on the only chunk; the store keeps its one old
    document. *)
Lemma oracle_failure_stores_nothing_witness :
  exists e,
    upload_contract example_chat (failing_oracle 0 example_answer)
      (example_pdf (Ok [Some (u "The Company may terminate at any time.")]))
      example_world example_file
      [document_of {| id := u "0"; result_filename := u "old.pdf";
                      analysis_results := []; processed_at := u "t" |}]
    = (Raise (HTTPException 500 (u "Analysis failed: " ++ str_exn e)),
       [document_of {| id := u "0"; result_filename := u "old.pdf";
                       analysis_results := []; processed_at := u "t" |}]).
Proof.
  destruct (@oracle_failure_stores_nothing nat example_chat
              (failing_oracle 0 example_answer)
              (example_pdf (Ok [Some (u "The Company may terminate at any time.")]))
              example_world example_file
              [document_of {| id := u "0"; result_filename := u "old.pdf";
                              analysis_results := []; processed_at := u "t" |}]
              [Byte.x25; Byte.x50; Byte.x44; Byte.x46]
              (u "The Company may terminate at any time.") 0)
    as [e [_ H]]; try (vm_compute; reflexivity).
  exists e. exact H.
Defined.

(** The second of two chunks fails: the finding of the first is dropped
    with the rest. *)
Example oracle_fails_on_second_chunk :
  upload_contract example_chat (failing_oracle 1 example_answer)
    (example_pdf (Ok [Some overlong_text])) example_world example_file []
  = (Raise (HTTPException 500 (u "Analysis failed: Connection error.")), []).
Proof. vm_compute. reflexivity. Qed.

(** C6, as the code has it.  The extension check answers 400; behind it, an
    empty file, a file the PDF library raises on, and a file without text
    all answer 400 as well, each with its own detail, and none touches the
    store. *)
Theorem upload_rejections_are_400
    (chat : Type) (LlmChat : str -> str -> chat)
    (send_message : chat -> str -> result str * chat)
    (pdf_pages : bytes -> result (list (option str)))
    (w : World) (file : UploadFile) (db : Store) :
  (endswith (lower (filename file)) (u ".pdf") = false ->
   upload_contract LlmChat send_message pdf_pages w file db
   = (Raise (HTTPException 400 (u "Only PDF files are currently supported")), db)) /\
  (forall file_content,
     check_filename (filename file) = Ok tt ->
     read file = Ok file_content ->
     (file_content = [] ->
      upload_contract LlmChat send_message pdf_pages w file db
      = (Raise (HTTPException 400 (u "Empty file uploaded")), db)) /\
     (forall e,
        file_content <> [] -> pdf_pages file_content = Raise e ->
        upload_contract LlmChat send_message pdf_pages w file db
        = (Raise (HTTPException 400 (u "Error processing PDF: " ++ str_exn e)),
           db)) /\
     (forall contract_text,
        file_content <> [] ->
        extract_text_from_pdf pdf_pages file_content = Ok contract_text ->
        strip contract_text = [] ->
        upload_contract LlmChat send_message pdf_pages w file db
        = (Raise (HTTPException 400
                    (u "No text could be extracted from the PDF")), db))).
Proof.
  split.
  - intros H. unfold upload_contract, check_filename. now rewrite H.
  - intros file_content Hname Hread. unfold upload_contract, upload_body.
    rewrite Hname, Hread. repeat split.
    + now intros ->.
    + intros e Hne Hpdf. destruct file_content; [congruence|]. simpl.
      unfold extract_text_from_pdf. now rewrite Hpdf.
    + intros text Hne Htext Hstrip. destruct file_content; [congruence|].
      simpl. now rewrite Htext, Hstrip.
Qed.

Lemma upload_rejections_are_400_witness :
  upload_contract example_chat (constant_oracle example_answer) broken_pdf
    example_world example_file []
  = (Raise (HTTPException 400
              (u "Error processing PDF: No /Root object! - Is this really a PDF?")),
     []) /\
  upload_contract example_chat (constant_oracle example_answer) broken_pdf
    example_world {| filename := u "lease.txt"; read := Ok [Byte.x25] |} []
  = (Raise (HTTPException 400 (u "Only PDF files are currently supported")), []) /\
  upload_contract example_chat (constant_oracle example_answer) broken_pdf
    example_world {| filename := u "lease.pdf"; read := Ok [] |} []
  = (Raise (HTTPException 400 (u "Empty file uploaded")), []) /\
  upload_contract example_chat (constant_oracle example_answer)
    (example_pdf (Ok [None; Some (u "  ")]))
    example_world example_file []
  = (Raise (HTTPException 400 (u "No text could be extracted from the PDF")), []).
Proof.
  split; [|split; [|split]].
  - apply (proj1 (proj2 (proj2 (upload_rejections_are_400
             example_chat (constant_oracle example_answer) broken_pdf
             example_world example_file [])
             [Byte.x25; Byte.x50; Byte.x44; Byte.x46] eq_refl eq_refl))
             (Exception (u "No /Root object! - Is this really a PDF?")));
      [discriminate | reflexivity].
  - apply (proj1 (upload_rejections_are_400
             example_chat (constant_oracle example_answer) broken_pdf
             example_world {| filename := u "lease.txt"; read := Ok [Byte.x25] |} [])).
    reflexivity.
  - apply (proj1 (proj2 (upload_rejections_are_400
             example_chat (constant_oracle example_answer) broken_pdf
             example_world {| filename := u "lease.pdf"; read := Ok [] |} [])
             [] eq_refl eq_refl)).
    reflexivity.
  - apply (proj2 (proj2 (proj2 (upload_rejections_are_400
             example_chat (constant_oracle example_answer)
             (example_pdf (Ok [None; Some (u "  ")]))
             example_world example_file [])
             [Byte.x25; Byte.x50; Byte.x44; Byte.x46] eq_refl eq_refl))
             []); [discriminate | reflexivity | reflexivity].
Defined.

(** C6, as stated, fails: a file the PDF library raises on is answered
    with 400, not 500. *)
Lemma upload_broken_pdf_is_not_500 :
  check_filename (filename example_file) = Ok tt /\
  (exists b bs, read example_file = Ok (b :: bs) /\
                exists e, broken_pdf (b :: bs) = Raise e) /\
  status_of (fst (upload_contract example_chat (constant_oracle example_answer)
                    broken_pdf example_world example_file [])) = 400 /\
  status_of (fst (upload_contract example_chat (constant_oracle example_answer)
                    broken_pdf example_world example_file [])) <> 500.
Proof.
  split; [reflexivity|]. split.
  - do 2 eexists. split; [reflexivity|]. eexists. reflexivity.
  - split; [reflexivity | discriminate].
Qed.

(** C10.  An upload whose file name is empty is turned away by the
    extension check, with its detail and with the store untouched.  For
    every file name the two checks either pass or raise the error of the
    first: a name that ends in [.pdf] is not empty, so the second check
    never fires. *)
Theorem empty_filename_fails_extension_check :
  (forall (chat : Type) (LlmChat : str -> str -> chat)
          (send_message : chat -> str -> result str * chat)
          (pdf_pages : bytes -> result (list (option str)))
          (w : World) (content : result bytes) (db : Store),
     upload_contract LlmChat send_message pdf_pages w
       {| filename := []; read := content |} db
     = (Raise (HTTPException 400 (u "Only PDF files are currently supported")),
        db)) /\
  (forall name : str,
     check_filename name
     = if endswith (lower name) (u ".pdf") then Ok tt
       else Raise (HTTPException 400 (u "Only PDF files are currently supported"))) /\
  (forall name : str,
     endswith (lower name) (u ".pdf") && is_empty name = false).
Proof.
  split; [|split].
  - reflexivity.
  - intros name. unfold check_filename.
    destruct (endswith (lower name) (u ".pdf")) eqn:E; [|reflexivity].
    destruct name; [discriminate E | reflexivity].
  - intros name. destruct name; [reflexivity | apply andb_false_r].
Qed.

(** * Further properties *)

(** ** The chunker: slack, oversized words, shape of the chunks *)

Lemma chunk_text_words (budget : nat) (contract_text : str) :
  concat (map split (chunk_text budget contract_text)) = split contract_text.
Proof.
  unfold chunk_text. destruct (budget <? length contract_text).
  - destruct (@chunk_words_words budget (split contract_text)
                (split_words contract_text) ([], [], 0)) as [E P];
      [constructor|].
    rewrite finish_chunks_words by assumption. now rewrite E.
  - simpl. apply app_nil_r.
Qed.

Lemma in_chunk_in_text (budget : nat) (contract_text chunk w : str) :
  In chunk (chunk_text budget contract_text) -> In w (split chunk) ->
  In w (split contract_text).
Proof.
  intros Hc Hw. rewrite <- (chunk_text_words budget contract_text).
  apply in_concat. exists (split chunk). split; [|assumption].
  now apply in_map.
Qed.

Lemma split_from_length (s : str) :
  forall cur w, In w (split_from cur s) ->
  length w <= length cur + length s /\
  (length w = length cur + length s -> w = rev cur ++ s).
Proof.
  induction s as [|c s IH]; intros cur w; simpl.
  - destruct cur as [|a cur]; simpl; [contradiction|].
    intros [<-|[]]. rewrite reverse_rev, length_rev, app_nil_r. simpl.
    split; [lia | reflexivity].
  - destruct (isspace c).
    + intros H. apply in_app_or in H. destruct H as [H|H].
      * destruct cur as [|a cur]; simpl in H; [contradiction|].
        destruct H as [<-|[]]. rewrite reverse_rev, length_rev. simpl.
        split; lia.
      * destruct (IH [] w H) as [Hle _]. simpl in Hle. split; lia.
    + intros H. destruct (IH (c :: cur) w H) as [Hle Heq]. simpl in *.
      split; [lia|]. intros E. rewrite Heq by lia.
      now rewrite <- app_assoc.
Qed.

Lemma word_fills_text (s w : str) :
  In w (split s) -> length s <= length w -> s = w.
Proof.
  intros H Hle. destruct (split_from_length s [] w H) as [Hl He].
  simpl in *. symmetry. apply He. lia.
Qed.

(** X1.  A chunk is at most one character over the budget, or it is one
    word of the text, whole. *)
Theorem chunk_text_slack (budget : nat) (contract_text chunk : str) :
  In chunk (chunk_text budget contract_text) ->
  length chunk <= budget + 1 \/ In chunk (split contract_text).
Proof.
  intros H.
  pose proof (chunk_text_bound budget contract_text) as B.
  rewrite Forall_forall in B. destruct (B chunk H) as [Hle|Hw].
  - now left.
  - right. apply (in_chunk_in_text budget contract_text chunk chunk H).
    rewrite (split_word Hw). now left.
Qed.

Lemma chunk_text_slack_witness :
  length (u "bb cc") <= 4 + 1 \/ In (u "bb cc") (split (u "aaaa bb cc")).
Proof.
  apply (@chunk_text_slack 4 (u "aaaa bb cc") (u "bb cc")).
  right. left. reflexivity.
Defined.

(** X2.  A word longer than the budget is the whole of its chunk. *)
Theorem oversized_word_is_alone (budget : nat) (contract_text chunk w : str) :
  In chunk (chunk_text budget contract_text) ->
  In w (split chunk) ->
  budget < length w ->
  chunk = w.
Proof.
  intros Hc Hw Hlen.
  pose proof (chunk_text_bound budget contract_text) as B.
  rewrite Forall_forall in B. destruct (B chunk Hc) as [Hle|Hword].
  - apply word_fills_text; [assumption | lia].
  - rewrite (split_word Hword) in Hw. destruct Hw as [<-|[]]. reflexivity.
Qed.

Lemma oversized_word_is_alone_witness :
  u "indemnification" = u "indemnification".
Proof.
  apply (@oversized_word_is_alone 9 (u "full indemnification for all")
           (u "indemnification") (u "indemnification")).
  - right. left. reflexivity.
  - left. reflexivity.
  - apply Nat.ltb_lt. reflexivity.
Defined.

Lemma chunk_word_shape (budget : nat) (st : chunker_state) (word : str) :
  chunker_shape st -> is_word word -> chunker_shape (chunk_word budget st word).
Proof.
  destruct st as [[chunks cur] len]. unfold chunker_shape, chunk_word.
  intros [Hchunks Hcur] Hw.
  destruct ((budget <? len + length word) && negb (is_empty cur)) eqn:E.
  - split; [|constructor; [assumption | constructor]].
    apply Forall_app. split; [assumption|]. constructor; [|constructor].
    exists cur. repeat split; [|assumption].
    destruct cur; [|discriminate].
    now rewrite andb_false_r in E.
  - split; [assumption|].
    apply Forall_app. split; [assumption | constructor; [assumption | constructor]].
Qed.

Lemma chunk_words_shape (budget : nat) (words : list str) :
  Forall is_word words ->
  forall st, chunker_shape st -> chunker_shape (chunk_words budget words st).
Proof.
  unfold chunk_words.
  induction 1 as [|w words Hw _ IH]; intros st Hst; simpl; [assumption|].
  apply IH. now apply chunk_word_shape.
Qed.

Lemma chunk_text_packed (budget : nat) (contract_text : str) :
  budget < length contract_text ->
  Forall packed (chunk_text budget contract_text).
Proof.
  intros Hlt. unfold chunk_text.
  destruct (Nat.ltb_spec budget (length contract_text)); [|lia].
  assert (I : chunker_shape
                (chunk_words budget (split contract_text) ([], [], 0))).
  { apply chunk_words_shape; [apply split_words|]. split; constructor. }
  destruct (chunk_words budget (split contract_text) ([], [], 0))
    as [[chunks cur] len].
  destruct I as [Hchunks Hcur]. unfold finish_chunks.
  destruct cur as [|a cur]; cbn [is_empty]; [assumption|].
  apply Forall_app. split; [assumption|]. constructor; [|constructor].
  exists (a :: cur). repeat split; [discriminate | assumption].
Qed.

Lemma join_words_nonempty (ws : list str) :
  ws <> [] -> Forall is_word ws -> join (u " ") ws <> [].
Proof.
  intros Hne H. destruct H as [|w ws [Hw _] _]; [congruence|].
  destruct ws; simpl; [assumption|].
  destruct w; [congruence | discriminate].
Qed.

(** X3.  When the text is longer than the budget, every chunk is made of
    its words with single spaces between them: it is not empty, and it has
    no white space at either end and no other white space than those
    single spaces. *)
Theorem chunks_are_packed_words (budget : nat) (contract_text chunk : str) :
  budget < length contract_text ->
  In chunk (chunk_text budget contract_text) ->
  chunk <> [] /\ split chunk <> [] /\ join (u " ") (split chunk) = chunk.
Proof.
  intros Hlt Hin.
  pose proof (@chunk_text_packed budget contract_text Hlt) as P.
  rewrite Forall_forall in P. destruct (P chunk Hin) as (ws & Hne & Hws & ->).
  rewrite split_join by assumption.
  repeat split; [now apply join_words_nonempty | assumption].
Qed.

Lemma chunks_are_packed_words_witness :
  u "brown fox" <> [] /\ split (u "brown fox") <> [] /\
  join (u " ") (split (u "brown fox")) = u "brown fox".
Proof.
  apply (@chunks_are_packed_words 9 (u "  the quick   brown fox  ")).
  - apply Nat.ltb_lt. reflexivity.
  - right. left. reflexivity.
Defined.

(** ** White space: [strip], [split], and the extracted text *)

Lemma lstrip_head (s : str) :
  match lstrip s with [] => True | c :: _ => isspace c = false end.
Proof.
  induction s as [|c s IH]; simpl; [exact I|].
  destruct (isspace c) eqn:E; [exact IH | exact E].
Qed.

Lemma lstrip_fixed (s : str) :
  match s with [] => True | c :: _ => isspace c = false end -> lstrip s = s.
Proof. destruct s as [|c s]; simpl; [reflexivity|]. now intros ->. Qed.

Lemma lstrip_suffix (s : str) :
  exists p, s = p ++ lstrip s /\ all_space p = true.
Proof.
  induction s as [|c s (p & E & Hp)]; simpl.
  - now exists [].
  - destruct (isspace c) eqn:Ec.
    + exists (c :: p). simpl. rewrite Ec, Hp. split; [now f_equal | reflexivity].
    + now exists [].
Qed.

Lemma strip_fixed (s : str) : strip (strip s) = strip s.
Proof.
  unfold strip. rewrite !reverse_rev.
  set (a := lstrip s). set (b := lstrip (rev a)).
  assert (Hb : lstrip (rev b) = rev b).
  { apply lstrip_fixed.
    destruct (lstrip_suffix (rev a)) as (p & E & _). fold b in E.
    apply (f_equal (@rev N)) in E. rewrite rev_involutive, rev_app_distr in E.
    pose proof (lstrip_head s) as Ha. fold a in Ha.
    destruct (rev b) as [|x t]; [exact I|].
    rewrite E in Ha. exact Ha. }
  rewrite Hb, rev_involutive.
  unfold b at 1. rewrite (lstrip_fixed _ (lstrip_head (rev a))). reflexivity.
Qed.

Lemma all_space_lstrip (s : str) : all_space s = true -> lstrip s = [].
Proof.
  induction s as [|c s IH]; simpl; [reflexivity|].
  destruct (isspace c); [exact IH | discriminate].
Qed.

Lemma all_space_split (s : str) : all_space s = true -> split s = [].
Proof.
  unfold split. induction s as [|c s IH]; simpl; [reflexivity|].
  destruct (isspace c); [exact IH | discriminate].
Qed.

(** X4.  The text [extract_text_from_pdf] returns has no white space at
    either end: stripping it again changes nothing, so the test for a PDF
    without text comes down to the extracted text being empty. *)
Theorem extracted_text_is_stripped
    (pdf_pages : bytes -> result (list (option str)))
    (file_content : bytes) (contract_text : str) :
  extract_text_from_pdf pdf_pages file_content = Ok contract_text ->
  strip contract_text = contract_text /\
  is_empty (strip contract_text) = is_empty contract_text.
Proof.
  unfold extract_text_from_pdf.
  destruct (pdf_pages file_content) as [pages|e]; [|discriminate].
  intros [= <-]. now rewrite strip_fixed.
Qed.

Lemma extracted_text_is_stripped_witness :
  extract_text_from_pdf
    (example_pdf (Ok [Some (u "  Lease "); None; Some []; Some (u "Term: 1 year ")]))
    [Byte.x25]
  = Ok (u "Lease 
Term: 1 year") /\
  strip (u "Lease 
Term: 1 year") = u "Lease 
Term: 1 year".
Proof.
  split; [reflexivity|].
  apply (@extracted_text_is_stripped
           (example_pdf (Ok [Some (u "  Lease "); None; Some [];
                             Some (u "Term: 1 year ")]))
           [Byte.x25]).
  reflexivity.
Defined.

(** ** The analysis and the endpoint, further *)

Section UploadFurther.

Variable chat : Type.
Variable LlmChat : str -> str -> chat.
Variable send_message : chat -> str -> result str * chat.
Variable pdf_pages : bytes -> result (list (option str)).

Lemma make_result_raises (d : Document) (e : exn) :
  make_result d = Raise e -> exists msg, e = Exception msg.
Proof.
  unfold make_result.
  assert (V : forall xs e0, validate_list_dict xs = Raise e0 ->
                            exists msg, e0 = Exception msg).
  { induction xs as [|x xs IH]; intros e0; simpl; [discriminate|].
    destruct x; try (intros [= <-]; eauto).
    destruct (validate_list_dict xs) as [ds|e1]; [discriminate|].
    intros [= <-]. now apply IH. }
  destruct (validate_list_dict (doc_analysis_results d)) as [ds|e1] eqn:E.
  - destruct (is_datetime (doc_processed_at d)); [discriminate|].
    intros [= <-]. eauto.
  - intros [= <-]. now apply V in E.
Qed.

(** What the endpoint does once the checks are passed. *)
Lemma upload_after_checks (w : World) (file : UploadFile) (db : Store)
    (contract_text : str) :
  text_to_analyze pdf_pages file = Some contract_text ->
  upload_contract LlmChat send_message pdf_pages w file db =
  match analyze_contract_with_llm LlmChat send_message w contract_text with
  | Raise e => (Raise e, db)
  | Ok results =>
      match insert_outcome w (analysis_data w file results) with
      | Raise e => (Raise (reraised e), db)
      | Ok _ =>
          (match make_result (analysis_data w file results) with
           | Ok r => Ok r
           | Raise e =>
               Raise (HTTPException 500 (u "Processing failed: " ++ str_exn e))
           end,
           db ++ [analysis_data w file results])
      end
  end.
Proof.
  unfold text_to_analyze, upload_contract, upload_body.
  destruct (check_filename (filename file)); [|discriminate].
  destruct (read file) as [file_content|]; [|discriminate].
  destruct (is_empty file_content); [discriminate|].
  destruct (extract_text_from_pdf pdf_pages file_content) as [t|]; [|discriminate].
  destruct (is_empty (strip t)); [discriminate|]. intros [= ->].
  destruct (analyze_contract_with_llm LlmChat send_message w contract_text)
    as [results|e] eqn:Ea.
  - fold (analysis_data w file results). unfold insert_one.
    destruct (insert_outcome w (analysis_data w file results)) as [[]|e].
    + destruct (make_result (analysis_data w file results)) as [r|e] eqn:Em;
        [reflexivity|].
      now destruct (make_result_raises _ Em) as [msg ->].
    + now destruct e.
  - now destruct (analyze_raises_http _ _ _ _ Ea) as [e0 ->].
Qed.

Lemma validate_list_dict_fails (xs : list value) :
  forallb is_dict xs = false -> exists e, validate_list_dict xs = Raise e.
Proof.
  induction xs as [|x xs IH]; simpl; [discriminate|].
  destruct x; simpl; eauto.
  intros H. destruct (IH H) as [e ->]. eauto.
Qed.

Lemma validate_list_dict_map (ds : list dict) :
  validate_list_dict (map JDict ds) = Ok ds.
Proof. induction ds as [|d ds IH]; simpl; [reflexivity | now rewrite IH]. Qed.

Lemma make_result_document_of (r : ContractAnalysisResult) :
  is_datetime (processed_at r) = true ->
  make_result (document_of r) = Ok r.
Proof.
  intros H. unfold make_result, document_of. simpl.
  rewrite validate_list_dict_map, H. now destruct r.
Qed.

End UploadFurther.

(** X5.  A text of white space only that is longer than the budget has no
    words, so it gives no chunk at all: with a session at hand the analysis
    returns the empty list whatever the oracle would answer. *)
Theorem blank_text_has_no_chunks
    (chat : Type) (LlmChat : str -> str -> chat)
    (send_message : chat -> str -> result str * chat)
    (w : World) (c : chat) (contract_text : str) :
  all_space contract_text = true ->
  max_chunk_size < length contract_text ->
  get_llm_chat LlmChat w = Ok c ->
  chunk_text max_chunk_size contract_text = [] /\
  analyze_contract_with_llm LlmChat send_message w contract_text = Ok [].
Proof.
  intros Hs Hlen Hc.
  assert (E : chunk_text max_chunk_size contract_text = []).
  { unfold chunk_text.
    destruct (Nat.ltb_spec max_chunk_size (length contract_text)); [|lia].
    now rewrite all_space_split. }
  split; [assumption|].
  unfold analyze_contract_with_llm. now rewrite Hc, E.
Qed.

Lemma blank_text_has_no_chunks_witness :
  analyze_contract_with_llm example_chat (failing_oracle 0 example_answer)
    example_world (repeat 32%N (S max_chunk_size)) = Ok [].
Proof.
  apply (@blank_text_has_no_chunks nat example_chat
           (failing_oracle 0 example_answer) example_world 0
           (repeat 32%N (S max_chunk_size))).
  - vm_compute. reflexivity.
  - apply Nat.ltb_lt. vm_compute. reflexivity.
  - reflexivity.
Defined.

(** X6.  Without a usable API key (unset or empty) the analysis fails with
    status 500 before any oracle call, whatever the oracle is; a request that
    has passed the checks is answered with that error and stores nothing. *)
Theorem missing_key_fails_analysis
    (chat : Type) (LlmChat : str -> str -> chat)
    (send_message : chat -> str -> result str * chat)
    (pdf_pages : bytes -> result (list (option str)))
    (w : World) (file : UploadFile) (db : Store) (contract_text : str) :
  key_missing w = true ->
  text_to_analyze pdf_pages file = Some contract_text ->
  analyze_contract_with_llm LlmChat send_message w contract_text
  = Raise (HTTPException 500
             (u "Analysis failed: "
              ++ str_exn (HTTPException 500 (u "LLM API key not configured")))) /\
  upload_contract LlmChat send_message pdf_pages w file db
  = (Raise (HTTPException 500
              (u "Analysis failed: "
               ++ str_exn (HTTPException 500 (u "LLM API key not configured")))),
     db).
Proof.
  intros Hk Ht.
  assert (E : analyze_contract_with_llm LlmChat send_message w contract_text
              = Raise (HTTPException 500
                         (u "Analysis failed: "
                          ++ str_exn (HTTPException 500
                                        (u "LLM API key not configured"))))).
  { unfold analyze_contract_with_llm, get_llm_chat. unfold key_missing in Hk.
    destruct (EMERGENT_LLM_KEY w) as [[|a k]|]; first [discriminate Hk | reflexivity]. }
  split; [assumption|].
  rewrite (upload_after_checks LlmChat send_message pdf_pages w file db Ht).
  now rewrite E.
Qed.

Lemma missing_key_fails_analysis_witness :
  status_of (fst (upload_contract example_chat (constant_oracle example_answer)
                    (example_pdf (Ok [Some (u "Either party may terminate.")]))
                    {| EMERGENT_LLM_KEY := Some []; session_uuid := u "5b2c";
                       record_uuid := u "9f1e"; utc_now := u "t";
                       insert_outcome := example_insert |}
                    example_file [])) = 500 /\
  snd (upload_contract example_chat (constant_oracle example_answer)
         (example_pdf (Ok [Some (u "Either party may terminate.")]))
         {| EMERGENT_LLM_KEY := Some []; session_uuid := u "5b2c";
            record_uuid := u "9f1e"; utc_now := u "t";
                       insert_outcome := example_insert |}
         example_file []) = [].
Proof.
  destruct (@missing_key_fails_analysis nat example_chat
              (constant_oracle example_answer)
              (example_pdf (Ok [Some (u "Either party may terminate.")]))
              {| EMERGENT_LLM_KEY := Some []; session_uuid := u "5b2c";
                 record_uuid := u "9f1e"; utc_now := u "t";
                       insert_outcome := example_insert |}
              example_file [] (u "Either party may terminate.")
              eq_refl eq_refl) as [_ E].
  rewrite E. split; reflexivity.
Defined.

(** X7.  The document is stored before the response is built.  When the
    analysis returns a list with an element that is not an object, and the
    database takes the document, the request is answered 500 and the
    document stays in the store all the same. *)
Theorem invalid_findings_are_stored_then_refused
    (chat : Type) (LlmChat : str -> str -> chat)
    (send_message : chat -> str -> result str * chat)
    (pdf_pages : bytes -> result (list (option str)))
    (w : World) (file : UploadFile) (db : Store) (contract_text : str)
    (results : list value) :
  text_to_analyze pdf_pages file = Some contract_text ->
  analyze_contract_with_llm LlmChat send_message w contract_text = Ok results ->
  forallb is_dict results = false ->
  insert_outcome w (analysis_data w file results) = Ok tt ->
  exists msg,
    upload_contract LlmChat send_message pdf_pages w file db
    = (Raise (HTTPException 500 (u "Processing failed: " ++ msg)),
       db ++ [analysis_data w file results]).
Proof.
  intros Ht Ea Hd Hi.
  rewrite (upload_after_checks LlmChat send_message pdf_pages w file db Ht), Ea, Hi.
  unfold make_result. simpl.
  destruct (validate_list_dict_fails _ Hd) as [e ->]. now exists (str_exn e).
Qed.

Lemma invalid_findings_are_stored_then_refused_witness :
  exists msg,
    upload_contract example_chat (constant_oracle (u "[1]"))
      (example_pdf (Ok [Some (u "Either party may terminate.")]))
      example_world example_file []
    = (Raise (HTTPException 500 (u "Processing failed: " ++ msg)),
       [] ++ [analysis_data example_world example_file [JInt 1]]).
Proof.
  apply (@invalid_findings_are_stored_then_refused nat example_chat
           (constant_oracle (u "[1]"))
           (example_pdf (Ok [Some (u "Either party may terminate.")]))
           example_world example_file [] (u "Either party may terminate.")
           [JInt 1]); vm_compute; reflexivity.
Defined.

(** When the database refuses the document, for one by an integer beyond
    64 bits, the same request is answered 500 with nothing stored. *)
Example refused_insert_stores_nothing :
  upload_contract example_chat (constant_oracle (u "[18446744073709551616]"))
    (example_pdf (Ok [Some (u "Either party may terminate.")]))
    example_world example_file []
  = (Raise (HTTPException 500
              (u "Processing failed: MongoDB can only handle up to 8-byte ints")),
     []).
Proof. vm_compute. reflexivity. Qed.

(** X8.  An upload never removes or changes a stored document: the store
    comes back as it was or with one document added at its end, the one of
    this request.  A response with a status other than 200 or 500 leaves the
    store as it was. *)
Theorem upload_only_appends
    (chat : Type) (LlmChat : str -> str -> chat)
    (send_message : chat -> str -> result str * chat)
    (pdf_pages : bytes -> result (list (option str)))
    (w : World) (file : UploadFile) (db : Store) :
  snd (upload_contract LlmChat send_message pdf_pages w file db) = db \/
  exists results,
    snd (upload_contract LlmChat send_message pdf_pages w file db)
    = db ++ [analysis_data w file results] /\
    (status_of (fst (upload_contract LlmChat send_message pdf_pages w file db))
     = 200 \/
     status_of (fst (upload_contract LlmChat send_message pdf_pages w file db))
     = 500).
Proof.
  destruct (text_to_analyze pdf_pages file) as [t|] eqn:Ht.
  - rewrite (upload_after_checks LlmChat send_message pdf_pages w file db Ht).
    destruct (analyze_contract_with_llm LlmChat send_message w t)
      as [results|e]; [|now left].
    destruct (insert_outcome w (analysis_data w file results)); [|now left].
    right. exists results. split; [reflexivity|].
    destruct (make_result (analysis_data w file results)); simpl; auto.
  - left. revert Ht. unfold text_to_analyze, upload_contract, upload_body.
    destruct (check_filename (filename file)); [|reflexivity].
    destruct (read file) as [file_content|e]; [|now destruct e].
    destruct (is_empty file_content); [reflexivity|].
    destruct (extract_text_from_pdf pdf_pages file_content) as [t|e];
      [|now destruct e].
    destruct (is_empty (strip t)); [reflexivity | discriminate].
Qed.

(** X9.  End to end: a request that passes the checks, with a session at
    hand, an oracle that answers every chunk, answers whose findings are all
    objects, a time that is a datetime string and a database that takes the
    document, is answered 200 with the findings of all chunks in order,
    under the identifier and the time of the request; the store gains that
    one document. *)
Theorem upload_succeeds
    (chat : Type) (LlmChat : str -> str -> chat)
    (send_message : chat -> str -> result str * chat)
    (pdf_pages : bytes -> result (list (option str)))
    (w : World) (file : UploadFile) (db : Store) (contract_text : str)
    (c : chat) (responses : list str) (findings : list (list dict)) :
  text_to_analyze pdf_pages file = Some contract_text ->
  get_llm_chat LlmChat w = Ok c ->
  oracle_replies send_message
    (length (chunk_text max_chunk_size contract_text)) 0
    (chunk_text max_chunk_size contract_text) c = map Ok responses ->
  Forall2 (fun r ds => parse_response r = Ok (map JDict ds)) responses findings ->
  is_datetime (utc_now w) = true ->
  insert_outcome w (analysis_data w file (map JDict (concat findings))) = Ok tt ->
  upload_contract LlmChat send_message pdf_pages w file db
  = (Ok {| id := record_uuid w; result_filename := filename file;
           analysis_results := concat findings; processed_at := utc_now w |},
     db ++ [document_of
              {| id := record_uuid w; result_filename := filename file;
                 analysis_results := concat findings;
                 processed_at := utc_now w |}]).
Proof.
  intros Ht Hc Hr HF Hnow Hi.
  rewrite (upload_after_checks LlmChat send_message pdf_pages w file db Ht).
  assert (Ea : analyze_contract_with_llm LlmChat send_message w contract_text
               = Ok (map JDict (concat findings))).
  { unfold analyze_contract_with_llm. rewrite Hc.
    rewrite analyze_chunks_ok
      with (responses := responses) (per_chunk := map (map JDict) findings).
    - simpl. now rewrite concat_map.
    - assumption.
    - clear Hr Hi. induction HF; simpl; constructor; assumption. }
  rewrite Ea, Hi.
  change (analysis_data w file (map JDict (concat findings)))
    with (document_of {| id := record_uuid w; result_filename := filename file;
                         analysis_results := concat findings;
                         processed_at := utc_now w |}).
  now rewrite make_result_document_of.
Qed.

Lemma upload_succeeds_witness :
  upload_contract example_chat (constant_oracle loose_answer)
    (example_pdf (Ok [Some (u "Either party may terminate.")]))
    example_world example_file []
  = (Ok {| id := u "9f1e"; result_filename := u "lease.pdf";
           analysis_results :=
             concat [[ [(u "clause_text", JStr (u "a"));
                        (u "issue_detected", JStr (u "b"));
                        (u "explanation", JStr (u "c"));
                        (u "suggested_alternative", JStr (u "d"));
                        (u "risk_level", JStr (u "Critical"))];
                       [(u "clause_text", JStr (u "a"));
                        (u "issue_detected", JStr (u "b"));
                        (u "explanation", JInt 5);
                        (u "suggested_alternative", JStr (u "d"));
                        (u "risk_level", JStr (u "High"))] ]];
           processed_at := u "2025-01-01T00:00:00+00:00" |},
     [] ++ [document_of
       {| id := u "9f1e"; result_filename := u "lease.pdf";
           analysis_results :=
             concat [[ [(u "clause_text", JStr (u "a"));
                        (u "issue_detected", JStr (u "b"));
                        (u "explanation", JStr (u "c"));
                        (u "suggested_alternative", JStr (u "d"));
                        (u "risk_level", JStr (u "Critical"))];
                       [(u "clause_text", JStr (u "a"));
                        (u "issue_detected", JStr (u "b"));
                        (u "explanation", JInt 5);
                        (u "suggested_alternative", JStr (u "d"));
                        (u "risk_level", JStr (u "High"))] ]];
           processed_at := u "2025-01-01T00:00:00+00:00" |}]).
Proof.
  apply (@upload_succeeds nat example_chat (constant_oracle loose_answer)
           (example_pdf (Ok [Some (u "Either party may terminate.")]))
           example_world example_file [] (u "Either party may terminate.")
           0 [loose_answer]).
  - reflexivity.
  - reflexivity.
  - reflexivity.
  - constructor; [vm_compute; reflexivity | constructor].
  - reflexivity.
  - reflexivity.
Defined.

(** ** The record endpoints *)

Lemma str_eqb_true (a b : str) : str_eqb a b = true <-> a = b.
Proof.
  unfold str_eqb. destruct (list_eq_dec N.eq_dec a b); split;
    congruence.
Qed.

Lemma str_eqb_refl (a : str) : str_eqb a a = true.
Proof. now apply str_eqb_true. Qed.

Lemma find_one_absent (db : Store) (analysis_id : str) :
  existsb (has_id analysis_id) db = false -> find_one db analysis_id = None.
Proof.
  unfold find_one. induction db as [|d db IH]; simpl; [reflexivity|].
  destruct (has_id analysis_id d); [discriminate | exact IH].
Qed.

Lemma delete_one_absent (db : Store) (analysis_id : str) :
  existsb (has_id analysis_id) db = false -> delete_one db analysis_id = (0, db).
Proof.
  induction db as [|d db IH]; simpl; [reflexivity|].
  destruct (has_id analysis_id d); [discriminate|].
  intros H. now rewrite (IH H).
Qed.

Lemma first_match (db : Store) (analysis_id : str) :
  existsb (has_id analysis_id) db = true ->
  exists before d after,
    db = before ++ d :: after /\
    existsb (has_id analysis_id) before = false /\
    has_id analysis_id d = true /\
    find_one db analysis_id = Some d /\
    delete_one db analysis_id = (1, before ++ after).
Proof.
  unfold find_one. induction db as [|d db IH]; simpl; [discriminate|].
  destruct (has_id analysis_id d) eqn:E.
  - intros _. exists [], d, db. now repeat split.
  - intros H. destruct (IH H) as (b & x & a & -> & Hb & Hx & Hf & Hd).
    exists (d :: b), x, a. simpl. rewrite E, Hd. now repeat split.
Qed.

(** X10.  An identifier no stored document carries: the lookup and the
    deletion both answer 404, and the deletion leaves the store as it
    was. *)
Theorem absent_id_is_404 (db : Store) (analysis_id : str) :
  existsb (has_id analysis_id) db = false ->
  get_analysis db analysis_id
  = Raise (HTTPException 404 (u "Analysis not found")) /\
  delete_analysis db analysis_id
  = (Raise (HTTPException 404 (u "Analysis not found")), db).
Proof.
  intros H. unfold get_analysis, delete_analysis.
  now rewrite (find_one_absent _ _ H), (delete_one_absent _ _ H).
Qed.

Lemma absent_id_is_404_witness :
  get_analysis [example_document "lease.pdf" "9f1e" "2025-01-01" []] (u "0000")
  = Raise (HTTPException 404 (u "Analysis not found")) /\
  delete_analysis [example_document "lease.pdf" "9f1e" "2025-01-01" []] (u "0000")
  = (Raise (HTTPException 404 (u "Analysis not found")),
     [example_document "lease.pdf" "9f1e" "2025-01-01" []]).
Proof.
  apply absent_id_is_404. reflexivity.
Defined.

(** X11.  A deletion that finds the identifier answers with the success
    message and takes out one document, the first that carries the
    identifier; every other document stays, in its place. *)
Theorem delete_removes_first_match (db : Store) (analysis_id : str) :
  existsb (has_id analysis_id) db = true ->
  exists before d after,
    db = before ++ d :: after /\
    doc_id d = analysis_id /\
    existsb (has_id analysis_id) before = false /\
    delete_analysis db analysis_id
    = (Ok (u "Analysis deleted successfully"), before ++ after).
Proof.
  intros H. destruct (first_match _ _ H) as (b & d & a & E & Hb & Hd & _ & Hdel).
  exists b, d, a. unfold delete_analysis. rewrite Hdel.
  repeat split; try assumption. now apply str_eqb_true.
Qed.

Lemma delete_removes_first_match_witness :
  exists before d after,
    [example_document "a.pdf" "1" "t1" []; example_document "b.pdf" "2" "t2" [];
     example_document "c.pdf" "3" "t3" []] = before ++ d :: after /\
    doc_id d = u "2" /\
    existsb (has_id (u "2")) before = false /\
    delete_analysis
      [example_document "a.pdf" "1" "t1" []; example_document "b.pdf" "2" "t2" [];
       example_document "c.pdf" "3" "t3" []] (u "2")
    = (Ok (u "Analysis deleted successfully"), before ++ after).
Proof.
  apply delete_removes_first_match. reflexivity.
Defined.

Lemma filter_absent (db : Store) (analysis_id : str) :
  existsb (has_id analysis_id) db = false -> filter (has_id analysis_id) db = [].
Proof.
  induction db as [|d db IH]; simpl; [reflexivity|].
  destruct (has_id analysis_id d); [discriminate | exact IH].
Qed.

Lemma filter_none_absent (db : Store) (analysis_id : str) :
  filter (has_id analysis_id) db = [] -> existsb (has_id analysis_id) db = false.
Proof.
  induction db as [|d db IH]; simpl; [reflexivity|].
  destruct (has_id analysis_id d); [discriminate | exact IH].
Qed.

(** X12.  When one stored document carries the identifier, it can be
    deleted exactly once: the deletion succeeds, and after it the lookup
    and a second deletion answer 404. *)
Theorem delete_exactly_once (db : Store) (analysis_id : str) :
  length (filter (has_id analysis_id) db) = 1 ->
  fst (delete_analysis db analysis_id) = Ok (u "Analysis deleted successfully") /\
  length (snd (delete_analysis db analysis_id)) + 1 = length db /\
  get_analysis (snd (delete_analysis db analysis_id)) analysis_id
  = Raise (HTTPException 404 (u "Analysis not found")) /\
  fst (delete_analysis (snd (delete_analysis db analysis_id)) analysis_id)
  = Raise (HTTPException 404 (u "Analysis not found")).
Proof.
  intros H1.
  assert (He : existsb (has_id analysis_id) db = true).
  { destruct (existsb (has_id analysis_id) db) eqn:E; [reflexivity|].
    rewrite (filter_absent _ _ E) in H1. discriminate. }
  destruct (first_match _ _ He) as (b & d & a & E & Hb & Hd & _ & Hdel).
  unfold delete_analysis at 1 2 3 5. rewrite Hdel. simpl.
  assert (Ha : existsb (has_id analysis_id) (b ++ a) = false).
  { rewrite existsb_app, Hb. simpl. apply filter_none_absent.
    rewrite E, filter_app in H1. simpl in H1. rewrite Hd in H1.
    rewrite (filter_absent _ _ Hb) in H1. simpl in H1.
    destruct (filter (has_id analysis_id) a); [reflexivity | discriminate]. }
  unfold get_analysis, delete_analysis.
  rewrite (find_one_absent _ _ Ha), (delete_one_absent _ _ Ha). simpl.
  repeat split.
  rewrite E, !length_app. simpl. lia.
Qed.

Lemma delete_exactly_once_witness :
  fst (delete_analysis
         [example_document "a.pdf" "1" "t1" []; example_document "b.pdf" "2" "t2" []]
         (u "2")) = Ok (u "Analysis deleted successfully") /\
  fst (delete_analysis
         (snd (delete_analysis
                 [example_document "a.pdf" "1" "t1" [];
                  example_document "b.pdf" "2" "t2" []] (u "2")))
         (u "2")) = Raise (HTTPException 404 (u "Analysis not found")).
Proof.
  destruct (@delete_exactly_once
              [example_document "a.pdf" "1" "t1" [];
               example_document "b.pdf" "2" "t2" []] (u "2") eq_refl)
    as (H1 & _ & _ & H2).
  split; assumption.
Defined.


Lemma find_one_app (db : Store) (d : Document) (analysis_id : str) :
  existsb (has_id analysis_id) db = false ->
  find_one (db ++ [d]) analysis_id
  = if has_id analysis_id d then Some d else None.
Proof.
  unfold find_one. induction db as [|e db IH]; simpl; [reflexivity|].
  destruct (has_id analysis_id e); [discriminate | exact IH].
Qed.

Lemma delete_one_app (db : Store) (d : Document) (analysis_id : str) :
  existsb (has_id analysis_id) db = false ->
  has_id analysis_id d = true ->
  delete_one (db ++ [d]) analysis_id = (1, db).
Proof.
  intros Hdb Hd. induction db as [|e db IH]; simpl in *.
  - now rewrite Hd.
  - destruct (has_id analysis_id e); [discriminate|]. now rewrite (IH Hdb).
Qed.

Lemma upload_ok_store
    (chat : Type) (LlmChat : str -> str -> chat)
    (send_message : chat -> str -> result str * chat)
    (pdf_pages : bytes -> result (list (option str)))
    (w : World) (file : UploadFile) (db db' : Store)
    (r : ContractAnalysisResult) :
  upload_contract LlmChat send_message pdf_pages w file db = (Ok r, db') ->
  db' = db ++ [document_of r] /\ id r = record_uuid w /\
  make_result (document_of r) = Ok r.
Proof.
  intros H.
  destruct (upload_ok_inv _ _ _ _ _ _ H) as (text & results & _ & Em & ->).
  pose proof (make_result_ok _ Em) as Ed. rewrite Ed in Em |- *.
  injection Ed as _ _ _ Ei. now repeat split.
Qed.

(** X13.  What an upload returns can be fetched: when the identifier drawn
    for the request is not yet in the store, the lookup of the returned
    identifier in the new store gives the returned record back. *)
Theorem uploaded_record_is_found
    (chat : Type) (LlmChat : str -> str -> chat)
    (send_message : chat -> str -> result str * chat)
    (pdf_pages : bytes -> result (list (option str)))
    (w : World) (file : UploadFile) (db db' : Store)
    (r : ContractAnalysisResult) :
  existsb (has_id (record_uuid w)) db = false ->
  upload_contract LlmChat send_message pdf_pages w file db = (Ok r, db') ->
  get_analysis db' (id r) = Ok r.
Proof.
  intros Hfresh H. destruct (upload_ok_store _ _ _ _ _ _ H) as (-> & Ei & Em).
  unfold get_analysis. rewrite Ei, find_one_app by assumption.
  unfold has_id at 1. simpl. rewrite Ei, str_eqb_refl.
  now rewrite Em.
Qed.

Lemma uploaded_record_is_found_witness :
  exists r db',
    upload_contract example_chat (constant_oracle example_answer)
      (example_pdf (Ok [Some (u "The Company may terminate at any time.")]))
      example_world example_file
      [example_document "old.pdf" "0001" "2024-12-31" []]
    = (Ok r, db') /\
    get_analysis db' (id r) = Ok r.
Proof.
  match goal with
  | |- exists r db', ?call = _ /\ _ =>
      let v := eval vm_compute in call in
      match v with
      | (Ok ?r0, ?d0) =>
          exists r0, d0;
          assert (E : call = (Ok r0, d0)) by (vm_compute; reflexivity);
          split; [exact E|];
          eapply uploaded_record_is_found; [|exact E]; reflexivity
      end
  end.
Defined.

(** X14.  Deleting what an upload has just stored gives the old store
    back, when the identifier drawn for the request was not yet in it. *)
Theorem delete_undoes_upload
    (chat : Type) (LlmChat : str -> str -> chat)
    (send_message : chat -> str -> result str * chat)
    (pdf_pages : bytes -> result (list (option str)))
    (w : World) (file : UploadFile) (db db' : Store)
    (r : ContractAnalysisResult) :
  existsb (has_id (record_uuid w)) db = false ->
  upload_contract LlmChat send_message pdf_pages w file db = (Ok r, db') ->
  delete_analysis db' (id r) = (Ok (u "Analysis deleted successfully"), db).
Proof.
  intros Hfresh H. destruct (upload_ok_store _ _ _ _ _ _ H) as (-> & Ei & _).
  unfold delete_analysis. rewrite Ei, delete_one_app.
  - reflexivity.
  - assumption.
  - unfold has_id. simpl. rewrite Ei. apply str_eqb_refl.
Qed.

Lemma delete_undoes_upload_witness :
  exists r db',
    upload_contract example_chat (constant_oracle example_answer)
      (example_pdf (Ok [Some (u "The Company may terminate at any time.")]))
      example_world example_file
      [example_document "old.pdf" "0001" "2024-12-31" []]
    = (Ok r, db') /\
    delete_analysis db' (id r)
    = (Ok (u "Analysis deleted successfully"),
       [example_document "old.pdf" "0001" "2024-12-31" []]).
Proof.
  match goal with
  | |- exists r db', ?call = _ /\ _ =>
      let v := eval vm_compute in call in
      match v with
      | (Ok ?r0, ?d0) =>
          exists r0, d0;
          assert (E : call = (Ok r0, d0)) by (vm_compute; reflexivity);
          split; [exact E|];
          eapply delete_undoes_upload; [|exact E]; reflexivity
      end
  end.
Defined.

Lemma has_id_other (analysis_id other : str) (d : Document) :
  analysis_id <> other -> has_id analysis_id d = true -> has_id other d = false.
Proof.
  unfold has_id. intros Hne H. apply str_eqb_true in H.
  destruct (str_eqb (doc_id d) other) eqn:E; [|reflexivity].
  apply str_eqb_true in E. congruence.
Qed.

(** X15.  A deletion touches one identifier only: the lookup of any other
    identifier gives the same after it as before. *)
Theorem delete_keeps_other_records (db : Store) (analysis_id other : str) :
  analysis_id <> other ->
  get_analysis (snd (delete_analysis db analysis_id)) other
  = get_analysis db other.
Proof.
  intros Hne. unfold delete_analysis.
  assert (F : find_one (snd (delete_one db analysis_id)) other
              = find_one db other).
  { unfold find_one. induction db as [|d db IH]; simpl; [reflexivity|].
    destruct (has_id analysis_id d) eqn:E.
    - simpl. now rewrite (has_id_other d Hne E).
    - destruct (delete_one db analysis_id) as [n rest]. simpl in *.
      now rewrite IH. }
  destruct (delete_one db analysis_id) as [n rest]. simpl in F.
  unfold get_analysis. destruct (n =? 0); simpl; now rewrite F.
Qed.

Lemma delete_keeps_other_records_witness :
  get_analysis
    (snd (delete_analysis
            [example_document "a.pdf" "1" "t1" []; example_document "b.pdf" "2" "t2" []]
            (u "1"))) (u "2")
  = get_analysis
      [example_document "a.pdf" "1" "t1" []; example_document "b.pdf" "2" "t2" []]
      (u "2").
Proof.
  apply delete_keeps_other_records. discriminate.
Defined.

(** ** The listing *)

Lemma make_result_valid (d : Document) :
  listable d = true -> exists r, make_result d = Ok r.
Proof.
  unfold listable, valid_document, make_result.
  assert (V : forall xs, forallb is_dict xs = true ->
                         exists ds, validate_list_dict xs = Ok ds).
  { induction xs as [|x xs IH]; simpl; [eauto|].
    destruct x; simpl; try discriminate.
    intros H. destruct (IH H) as [ds ->]. eauto. }
  intros H. apply andb_prop in H. destruct H as [H Ht].
  destruct (V _ H) as [ds ->]. rewrite Ht. eauto.
Qed.

Lemma make_result_invalid (d : Document) :
  valid_document d = false -> exists msg, make_result d = Raise (Exception msg).
Proof.
  unfold valid_document. intros H. unfold make_result.
  destruct (validate_list_dict_fails _ H) as [e E]. rewrite E.
  assert (M : make_result d = Raise e) by (unfold make_result; now rewrite E).
  destruct (make_result_raises _ M) as [msg ->]. now exists msg.
Qed.

Lemma make_results_ok (ds : list Document) (rs : list ContractAnalysisResult) :
  make_results ds = Ok rs -> ds = map document_of rs.
Proof.
  revert rs. induction ds as [|d ds IH]; intros rs; simpl.
  - now intros [= <-].
  - destruct (make_result d) as [r|] eqn:E; [|discriminate].
    destruct (make_results ds) as [rs'|]; [|discriminate].
    intros [= <-]. simpl. rewrite (make_result_ok _ E). now rewrite (IH rs' eq_refl).
Qed.

Lemma make_results_valid (ds : list Document) :
  forallb listable ds = true -> exists rs, make_results ds = Ok rs.
Proof.
  induction ds as [|d ds IH]; simpl; [eauto|].
  intros H. apply andb_prop in H. destruct H as [Hd Hds].
  destruct (make_result_valid _ Hd) as [r ->].
  destruct (IH Hds) as [rs ->]. eauto.
Qed.

Lemma make_results_invalid (ds : list Document) :
  forallb valid_document ds = false -> exists e, make_results ds = Raise e.
Proof.
  induction ds as [|d ds IH]; simpl; [discriminate|].
  destruct (valid_document d) eqn:Hd; simpl.
  - intros H. destruct (IH H) as [e ->].
    destruct (make_result d); eauto.
  - intros _. destruct (make_result_invalid _ Hd) as [msg ->]. eauto.
Qed.

Lemma in_firstn {A} (n : nat) (l : list A) (x : A) :
  In x (firstn n l) -> In x l.
Proof.
  intros H. rewrite <- (firstn_skipn n l). apply in_or_app. now left.
Qed.

Lemma forallb_permutation {A} (f : A -> bool) (l l' : list A) :
  Permutation l l' -> forallb f l = forallb f l'.
Proof.
  induction 1; simpl; try congruence.
  now rewrite !andb_assoc, (andb_comm (f y)).
Qed.

Lemma insert_newest_permutation (d : Document) (l : list Document) :
  Permutation (insert_newest d l) (d :: l).
Proof.
  induction l as [|e l IH]; simpl; [reflexivity|].
  destruct (str_leb (doc_processed_at e) (doc_processed_at d)); [reflexivity|].
  rewrite IH. apply perm_swap.
Qed.

Lemma example_sort_permutation (db : Store) : Permutation (example_sort db) db.
Proof.
  induction db as [|d db IH]; simpl; [constructor|].
  rewrite insert_newest_permutation. now constructor.
Qed.

(** X16.  For a database that sorts without losing or inventing documents:
    a listing that succeeds returns at most a hundred records, they are the
    first hundred of the sorted collection, and each of them is a stored
    document. *)
Theorem listing_is_bounded_and_stored
    (sort_newest_first : Store -> list Document) (db : Store)
    (rs : list ContractAnalysisResult) :
  (forall l, Permutation (sort_newest_first l) l) ->
  get_analyses sort_newest_first db = Ok rs ->
  length rs <= 100 /\
  map document_of rs = firstn 100 (sort_newest_first db) /\
  forall r, In r rs -> In (document_of r) db.
Proof.
  intros Hp. unfold get_analyses.
  destruct (make_results (firstn 100 (sort_newest_first db))) as [rs'|] eqn:E;
    [|discriminate].
  intros [= <-]. apply make_results_ok in E.
  assert (L : length rs' <= 100).
  { rewrite <- (length_map document_of), <- E. apply firstn_le_length. }
  repeat split; [assumption | now symmetry |].
  intros r Hr. apply (Permutation_in _ (Hp db)).
  apply (in_firstn 100). rewrite E. now apply in_map.
Qed.

Lemma listing_is_bounded_and_stored_witness :
  exists rs,
    get_analyses example_sort
      [example_document "a.pdf" "1" "2025-01-01T09:00:00+00:00" [];
       example_document "b.pdf" "2" "2025-03-01T09:00:00.250000+00:00"
         [example_finding];
       example_document "c.pdf" "3" "2025-02-01T09:00:00+00:00" []] = Ok rs /\
    map id rs = [u "2"; u "3"; u "1"] /\ length rs <= 100.
Proof.
  match goal with
  | |- exists rs, ?call = _ /\ _ =>
      let v := eval vm_compute in call in
      match v with
      | Ok ?r0 =>
          exists r0;
          assert (E : call = Ok r0) by (vm_compute; reflexivity);
          split; [exact E|]; split; [reflexivity|];
          exact (proj1 (listing_is_bounded_and_stored
                          example_sort _ example_sort_permutation E))
      end
  end.
Defined.

(** X17.  When the findings of every stored document are all objects and
    its time is a datetime string, the listing succeeds and returns the
    smaller of a hundred and the number of documents. *)
Theorem listing_of_valid_store
    (sort_newest_first : Store -> list Document) (db : Store) :
  (forall l, Permutation (sort_newest_first l) l) ->
  forallb listable db = true ->
  exists rs,
    get_analyses sort_newest_first db = Ok rs /\
    length rs = Nat.min 100 (length db).
Proof.
  intros Hp Hv. unfold get_analyses.
  assert (Hs : forallb listable (sort_newest_first db) = true)
    by now rewrite (forallb_permutation _ (Hp db)).
  assert (Hf : forallb listable (firstn 100 (sort_newest_first db)) = true).
  { rewrite forallb_forall in *. intros d Hd. apply Hs.
    now apply (in_firstn 100). }
  destruct (make_results_valid _ Hf) as [rs E]. rewrite E.
  exists rs. split; [reflexivity|].
  apply make_results_ok in E.
  rewrite <- (length_map document_of), <- E, length_firstn.
  now rewrite (Permutation_length (Hp db)).
Qed.

Lemma listing_of_valid_store_witness :
  exists rs,
    get_analyses example_sort
      [example_document "a.pdf" "1" "2025-01-01T09:00:00+00:00" [];
       example_document "b.pdf" "2" "2025-03-01T09:00:00.250000+00:00"
         [example_finding]] = Ok rs /\
    length rs = Nat.min 100 2.
Proof.
  apply (listing_of_valid_store example_sort
           [example_document "a.pdf" "1" "2025-01-01T09:00:00+00:00" [];
            example_document "b.pdf" "2" "2025-03-01T09:00:00.250000+00:00"
              [example_finding]]
           example_sort_permutation).
  reflexivity.
Defined.

(** A stored time that is no datetime string breaks the listing too. *)
Example listing_with_bad_time :
  get_analyses example_sort [example_document "a.pdf" "1" "t2" []]
  = Raise (HTTPException 500 (u "Failed to fetch analyses")).
Proof. reflexivity. Qed.

(** X18.  One invalid document among at most a hundred makes the whole
    listing fail with status 500, and the lookup of that document fails
    with status 500 as well when it is the first with its identifier. *)
Theorem invalid_document_breaks_listing
    (sort_newest_first : Store -> list Document) (db : Store) (d : Document) :
  (forall l, Permutation (sort_newest_first l) l) ->
  length db <= 100 ->
  In d db ->
  valid_document d = false ->
  get_analyses sort_newest_first db
  = Raise (HTTPException 500 (u "Failed to fetch analyses")) /\
  (find_one db (doc_id d) = Some d ->
   get_analysis db (doc_id d)
   = Raise (HTTPException 500 (u "Failed to fetch analysis"))).
Proof.
  intros Hp Hlen Hin Hd. split.
  - unfold get_analyses.
    rewrite firstn_all2 by now rewrite (Permutation_length (Hp db)).
    assert (Hf : forallb valid_document (sort_newest_first db) = false).
    { rewrite (forallb_permutation _ (Hp db)).
      destruct (forallb valid_document db) eqn:E; [|reflexivity].
      rewrite forallb_forall in E. rewrite (E d Hin) in Hd. discriminate. }
    now destruct (make_results_invalid _ Hf) as [e ->].
  - intros Hf. unfold get_analysis. rewrite Hf.
    now destruct (make_result_invalid _ Hd) as [msg ->].
Qed.

Lemma invalid_document_breaks_listing_witness :
  get_analyses example_sort
    [example_document "a.pdf" "1" "2025-01-01" [];
     example_document "b.pdf" "2" "2025-03-01" [JInt 1]]
  = Raise (HTTPException 500 (u "Failed to fetch analyses")) /\
  get_analysis
    [example_document "a.pdf" "1" "2025-01-01" [];
     example_document "b.pdf" "2" "2025-03-01" [JInt 1]] (u "2")
  = Raise (HTTPException 500 (u "Failed to fetch analysis")).
Proof.
  destruct (@invalid_document_breaks_listing example_sort
              [example_document "a.pdf" "1" "2025-01-01" [];
               example_document "b.pdf" "2" "2025-03-01" [JInt 1]]
              (example_document "b.pdf" "2" "2025-03-01" [JInt 1])
              example_sort_permutation) as [H1 H2].
  - apply Nat.leb_le. reflexivity.
  - right. left. reflexivity.
  - reflexivity.
  - split; [exact H1 | exact (H2 eq_refl)].
Defined.



(** ** The health check *)

(** X20.  The health check raises nothing and has two answers: 200 with
    the healthy body, exactly when the database answers the ping, an API key
    is set and the oracle answers the test message; and 503 with the
    unhealthy body, which carries the text of the first failure: that of
    the ping, else that of the missing key, else that of the oracle. *)
Theorem health_check_status
    (chat : Type) (LlmChat : str -> str -> chat)
    (send_message : chat -> str -> result str * chat)
    (ping : result unit) (w : World) :
  (health_check LlmChat send_message ping w = (200, healthy w) \/
   exists e, health_check LlmChat send_message ping w = (503, unhealthy e w)) /\
  (health_check LlmChat send_message ping w = (200, healthy w) <->
   is_raise ping = false /\ key_missing w = false /\
   exists c, get_llm_chat LlmChat w = Ok c /\
             is_raise (fst (send_message c connection_test)) = false) /\
  (forall e, ping = Raise e ->
     health_check LlmChat send_message ping w = (503, unhealthy e w)) /\
  (is_raise ping = false -> key_missing w = true ->
   health_check LlmChat send_message ping w
   = (503, unhealthy (HTTPException 500 (u "LLM API key not configured")) w)) /\
  (forall c e, is_raise ping = false -> get_llm_chat LlmChat w = Ok c ->
     fst (send_message c connection_test) = Raise e ->
     health_check LlmChat send_message ping w = (503, unhealthy e w)).
Proof.
  unfold health_check, key_missing, get_llm_chat.
  destruct ping as [[]|e]; simpl.
  - destruct (EMERGENT_LLM_KEY w) as [[|a k]|]; simpl.
    + split; [right; eauto|]. split;
        [split; [discriminate | now intros (_ & H & _)]|].
      split; [discriminate|]. split; [reflexivity | discriminate].
    + destruct (fst (send_message (LlmChat (a :: k) (session_uuid w))
                       connection_test)) as [r|e] eqn:E; simpl.
      * split; [now left|]. split.
        { split; [|reflexivity]. intros _. repeat split.
          eexists. split; [reflexivity|]. now rewrite E. }
        split; [discriminate|]. split; [discriminate|].
        intros c e _ [= <-] H. rewrite E in H. discriminate.
      * split; [right; eauto|]. split.
        { split; [discriminate|].
          intros (_ & _ & c & [= <-] & H). rewrite E in H. discriminate. }
        split; [discriminate|]. split; [discriminate|].
        intros c e0 _ [= <-] H. rewrite E in H. now injection H as ->.
    + split; [right; eauto|]. split;
        [split; [discriminate | now intros (_ & H & _)]|].
      split; [discriminate|]. split; [reflexivity | discriminate].
  - split; [right; eauto|]. split;
      [split; [discriminate | now intros (H & _)]|].
    split; [now intros e0 [= ->]|]. split; discriminate.
Qed.

Lemma health_check_status_witness :
  health_check example_chat (constant_oracle (u "Hello!"))
    (Raise (Exception (u "No servers found yet"))) example_world
  = (503, unhealthy (Exception (u "No servers found yet")) example_world) /\
  health_check example_chat (failing_oracle 0 (u "Hello!")) (Ok tt) example_world
  = (503, unhealthy (Exception (u "Connection error.")) example_world) /\
  health_check example_chat (constant_oracle (u "Hello!")) (Ok tt) example_world
  = (200, healthy example_world).
Proof.
  split; [|split].
  - apply (proj1 (proj2 (proj2 (health_check_status example_chat
             (constant_oracle (u "Hello!"))
             (Raise (Exception (u "No servers found yet"))) example_world)))).
    reflexivity.
  - apply (proj2 (proj2 (proj2 (proj2 (health_check_status example_chat
             (failing_oracle 0 (u "Hello!")) (Ok tt) example_world))))
             0 (Exception (u "Connection error."))); reflexivity.
  - apply (proj1 (proj2 (health_check_status example_chat
             (constant_oracle (u "Hello!")) (Ok tt) example_world))).
    repeat split. exists 0. split; reflexivity.
Defined.

(** ** Requests that are turned away *)

(** X21.  A request that fails a check never reaches the oracle: its
    response and the store are the same whatever the oracle, the session
    and the surroundings are; the response is an error and the store is
    left as it was. *)
Theorem rejected_request_skips_oracle
    (chat1 chat2 : Type)
    (LlmChat1 : str -> str -> chat1) (LlmChat2 : str -> str -> chat2)
    (send1 : chat1 -> str -> result str * chat1)
    (send2 : chat2 -> str -> result str * chat2)
    (pdf_pages : bytes -> result (list (option str)))
    (w1 w2 : World) (file : UploadFile) (db : Store) :
  text_to_analyze pdf_pages file = None ->
  upload_contract LlmChat1 send1 pdf_pages w1 file db
  = upload_contract LlmChat2 send2 pdf_pages w2 file db /\
  is_raise (fst (upload_contract LlmChat1 send1 pdf_pages w1 file db)) = true /\
  snd (upload_contract LlmChat1 send1 pdf_pages w1 file db) = db.
Proof.
  unfold text_to_analyze, upload_contract, upload_body.
  destruct (check_filename (filename file)); [|now repeat split].
  destruct (read file) as [file_content|e]; [|now destruct e].
  destruct (is_empty file_content); [now repeat split|].
  destruct (extract_text_from_pdf pdf_pages file_content) as [t|e];
    [|now destruct e].
  destruct (is_empty (strip t)); [now repeat split | discriminate].
Qed.

Lemma rejected_request_skips_oracle_witness :
  upload_contract example_chat (constant_oracle example_answer)
    (example_pdf (Ok [None])) example_world example_file []
  = upload_contract example_chat (failing_oracle 0 example_answer)
      (example_pdf (Ok [None]))
      {| EMERGENT_LLM_KEY := None; session_uuid := []; record_uuid := [];
         utc_now := []; insert_outcome := example_insert |} example_file [].
Proof.
  apply (proj1 (@rejected_request_skips_oracle nat nat example_chat example_chat
                  (constant_oracle example_answer)
                  (failing_oracle 0 example_answer)
                  (example_pdf (Ok [None])) example_world
                  {| EMERGENT_LLM_KEY := None; session_uuid := [];
                     record_uuid := []; utc_now := [];
                     insert_outcome := example_insert |}
                  example_file [] eq_refl)).
Defined.

Lemma lower_char (c x : N) :
  (x = 46 \/ x = 112 \/ x = 100 \/ x = 102)%N ->
  ((if ((65 <=? c) && (c <=? 90))%N then (c + 32)%N else c) = x <->
   c = x \/ (c + 32 = x /\ x <> 46)%N).
Proof.
  intros Hx.
  destruct (N.leb_spec 65 c); destruct (N.leb_spec c 90); simpl; lia.
Qed.

Lemma startswith_four (a b c d : N) (g : N -> N) (s : str) :
  startswith [a; b; c; d] (map g s) = true <->
  exists x y z v t, s = x :: y :: z :: v :: t /\
                    g x = a /\ g y = b /\ g z = c /\ g v = d.
Proof.
  split.
  - destruct s as [|x [|y [|z [|v t]]]]; simpl;
      rewrite ?andb_false_r; try discriminate.
    intros E. repeat (apply andb_prop in E; destruct E as [? E]).
    repeat match goal with
           | H : (_ =? _)%N = true |- _ => apply N.eqb_eq in H; symmetry in H
           end.
    exists x, y, z, v, t. now repeat split.
  - intros (x & y & z & v & t & -> & <- & <- & <- & <-). simpl.
    rewrite !N.eqb_refl. now destruct (map g t).
Qed.

(** X22.  The extension check passes exactly the names that end in a dot
    followed by p, d and f, each letter in either case. *)
Theorem check_filename_accepts_pdf_suffix (name : str) :
  check_filename name = Ok tt <->
  exists stem p d f,
    name = stem ++ [46%N; p; d; f] /\
    (p = 112 \/ p = 80)%N /\ (d = 100 \/ d = 68)%N /\ (f = 102 \/ f = 70)%N.
Proof.
  unfold check_filename, endswith, lower. rewrite !reverse_rev, <- map_rev.
  change (rev (u ".pdf")) with [102; 100; 112; 46]%N.
  split.
  - destruct (startswith _ _) eqn:E; simpl; [|discriminate].
    intros _. apply startswith_four in E.
    destruct E as (f & d & p & o & t & E & Hf & Hd & Hp & Ho).
    apply (f_equal (@rev N)) in E. rewrite rev_involutive in E. simpl in E.
    rewrite <- !app_assoc in E. simpl in E.
    apply lower_char in Hf, Hd, Hp, Ho; try lia.
    exists (rev t), p, d, f. repeat split; try lia.
    rewrite E. do 2 f_equal. lia.
  - intros (stem & p & d & f & -> & Hp & Hd & Hf).
    assert (E : startswith [102; 100; 112; 46]%N
                  (map (fun c : N =>
                          if ((65 <=? c) && (c <=? 90))%N then (c + 32)%N else c)
                     (rev (stem ++ [46%N; p; d; f]))) = true).
    { apply startswith_four. rewrite rev_app_distr. simpl.
      exists f, d, p, 46%N, (rev stem). split; [reflexivity|].
      repeat split; apply lower_char; lia. }
    rewrite E. simpl. now destruct stem.
Qed.

Lemma check_filename_accepts_pdf_suffix_witness :
  check_filename (u "Lease.PdF") = Ok tt.
Proof.
  apply (proj2 (check_filename_accepts_pdf_suffix (u "Lease.PdF"))).
  exists (u "Lease"), 80%N, 100%N, 70%N. repeat split; auto.
Defined.

(** ** White space around the answer *)

Lemma all_space_rev (s : str) : all_space s = true -> all_space (rev s) = true.
Proof.
  unfold all_space. rewrite !forallb_forall. intros H c Hc.
  apply H. now apply in_rev.
Qed.

Lemma lstrip_skips (p x : str) :
  all_space p = true -> lstrip (p ++ x) = lstrip x.
Proof.
  induction p as [|c p IH]; simpl; [reflexivity|].
  destruct (isspace c); [exact IH | discriminate].
Qed.

Lemma lstrip_app (r q : str) :
  lstrip (r ++ q) = match lstrip r with [] => lstrip q | _ => lstrip r ++ q end.
Proof.
  induction r as [|c r IH]; simpl; [now destruct (lstrip q)|].
  destruct (isspace c); [exact IH | reflexivity].
Qed.

Lemma strip_padding (p r q : str) :
  all_space p = true -> all_space q = true -> strip (p ++ r ++ q) = strip r.
Proof.
  intros Hp Hq. unfold strip. rewrite !reverse_rev.
  rewrite lstrip_skips by assumption. rewrite lstrip_app.
  destruct (lstrip r) as [|c t] eqn:E.
  - now rewrite (@all_space_lstrip q Hq).
  - rewrite rev_app_distr.
    now rewrite lstrip_skips by (apply all_space_rev; assumption).
Qed.

Lemma space_is_no_bracket (s : str) :
  all_space s = true -> from_first "[" s = None /\ upto_last "]" s = None.
Proof.
  induction s as [|c s IH]; simpl; [now split|].
  destruct (isspace c) eqn:Ec; [|discriminate].
  intros H. destruct (IH H) as [-> ->].
  unfold isc. simpl N_of_ascii.
  destruct (N.eqb_spec c 91) as [->|_]; [discriminate Ec|].
  destruct (N.eqb_spec c 93) as [->|_]; [discriminate Ec|].
  now split.
Qed.

Lemma from_first_app (a : ascii) (r q : str) :
  from_first a (r ++ q)
  = match from_first a r with
    | Some t => Some (t ++ q)
    | None => from_first a q
    end.
Proof.
  induction r as [|c r IH]; simpl; [now destruct (from_first a q)|].
  destruct (isc a c); [reflexivity | exact IH].
Qed.

Lemma upto_last_app_absent (a : ascii) (x q : str) :
  upto_last a q = None -> upto_last a (x ++ q) = upto_last a x.
Proof.
  intros Hq. induction x as [|c x IH]; simpl; [exact Hq|]. now rewrite IH.
Qed.

Lemma re_search_array_padding (p r q : str) :
  all_space p = true -> all_space q = true ->
  re_search_array (p ++ r ++ q) = re_search_array r.
Proof.
  intros Hp Hq. unfold re_search_array.
  destruct (space_is_no_bracket _ Hp) as [Fp _].
  destruct (space_is_no_bracket _ Hq) as [Fq Lq].
  rewrite from_first_app, Fp, from_first_app.
  destruct (from_first "[" r) as [t|].
  - now apply upto_last_app_absent.
  - now rewrite Fq.
Qed.

(** X23.  White space before and after the oracle's answer makes no
    difference: the findings are those of the answer without it. *)
Theorem parse_response_ignores_padding (before response after : str) :
  all_space before = true ->
  all_space after = true ->
  parse_response (before ++ response ++ after) = parse_response response.
Proof.
  intros Hb Ha. unfold parse_response.
  now rewrite strip_padding, re_search_array_padding.
Qed.

Lemma parse_response_ignores_padding_witness :
  parse_response (u "
  " ++ uq "Findings: [{'risk_level': 'Low'}]" ++ u " 
")
  = parse_response (uq "Findings: [{'risk_level': 'Low'}]").
Proof.
  apply parse_response_ignores_padding; reflexivity.
Defined.

(** ** Where the parser raises and where it does not *)

(** X24.  The strict decode of the trimmed answer is the one place where
    the parser raises: it raises exactly the exception of that decode when
    this is not a [JSONDecodeError].  In every other case it returns the list
    of the three steps; whatever the second decode raises is taken and gives
    the empty list. *)
Theorem parser_raises_only_on_first_decode (response : str) :
  (forall e,
     parse_response response = Raise e <->
     json_loads (strip response) = Raise e /\
     forall msg, e <> JSONDecodeError msg) /\
  ((forall e, json_loads (strip response) = Raise e ->
              exists msg, e = JSONDecodeError msg) ->
   parse_response response = Ok (recovered_findings response)).
Proof.
  split.
  - intros e. split; [apply parse_response_raise|].
    intros [E Hne]. unfold parse_response. rewrite E.
    destruct e as [msg| |]; [now destruct (Hne msg) | reflexivity..].
  - intros H. destruct (json_loads (strip response)) as [v|e] eqn:E.
    + now apply (parse_response_decoded _ E).
    + destruct (H e eq_refl) as [msg ->].
      now apply (parse_response_after_decode_error _ E).
Qed.

Lemma parser_raises_only_on_first_decode_witness :
  parse_response (u "See [" ++ repeat 49%N 4301 ++ u "] above.")
  = Ok (recovered_findings (u "See [" ++ repeat 49%N 4301 ++ u "] above.")) /\
  recovered_findings (u "See [" ++ repeat 49%N 4301 ++ u "] above.") = [].
Proof.
  split; [|vm_compute; reflexivity].
  apply (proj2 (parser_raises_only_on_first_decode
                  (u "See [" ++ repeat 49%N 4301 ++ u "] above."))).
  intros e H. vm_compute in H. injection H as <-. eexists. reflexivity.
Defined.

(** X25.  When the strict decode of the trimmed answer fails with a
    [JSONDecodeError], and the text from the first opening bracket to the
    last closing bracket decodes to an array, the elements of that array are
    the findings of the chunk. *)
Theorem bracket_extraction_after_decode_error
    (response msg : str) (i j : nat) (items : list value) :
  json_loads (strip response) = Raise (JSONDecodeError msg) ->
  find "[" response = Some i ->
  rfind "]" response = Some j ->
  json_loads (slice response i (S j)) = Ok (JList items) ->
  parse_response response = Ok items.
Proof.
  intros E Ei Ej Em.
  rewrite (parse_response_after_decode_error _ E).
  unfold recovered_findings. now rewrite E, Ei, Ej, Em.
Qed.

Lemma bracket_extraction_after_decode_error_witness :
  parse_response
    (uq "Here is my analysis: [{'risk_level': 'High'}, {'risk_level': 'Low'}] I hope it helps.")
  = Ok [JDict [(u "risk_level", JStr (u "High"))];
        JDict [(u "risk_level", JStr (u "Low"))]].
Proof.
  apply (@bracket_extraction_after_decode_error _ (u "Expecting value") 21 67);
    vm_compute; reflexivity.
Defined.
